(** * voltagelord: a shallow embedding of [server.js]

    The server is an Express application: a visitor counter backed by
    one SQLite table, three GitHub proxies that share one in-memory
    cache object, and a quotes endpoint.  The handlers are embedded as
    functions in a small state-and-exception monad; everything the
    process cannot decide by itself (the clock, the replies of the
    remote services, database failures, the order chosen by the engine
    for a sort with a random comparator) is read from an environment. *)

From Stdlib Require Import ZArith List String Ascii Bool Lia.
From Stdlib Require Import Permutation Sorted.
Import ListNotations.

Local Open Scope string_scope.
Local Open Scope Z_scope.

(** ** Stable sorting

    Both [Array.prototype.sort] and the [ORDER BY] of the store are
    modelled by one stable sort: [x] stays before [y] when
    [cmp x y <= 0]. *)

Fixpoint sort_insert {A} (cmp : A -> A -> Z) (x : A) (l : list A) : list A :=
  match l with
  | [] => [x]
  | y :: t => if cmp x y <=? 0 then x :: y :: t
              else y :: sort_insert cmp x t
  end.

Fixpoint stable_sort {A} (cmp : A -> A -> Z) (l : list A) : list A :=
  match l with
  | [] => []
  | x :: t => sort_insert cmp x (stable_sort cmp t)
  end.

(** ** The fragment of JavaScript the handlers rely on *)

Module Js.

(** [s] used as a condition, for a value that is a string, [null] or
    [undefined]: only a non-empty string is truthy. *)
Definition truthy (s : option string) : bool :=
  match s with
  | Some EmptyString => false
  | Some _ => true
  | None => false
  end.

(** [a || d] for such a value and a string default. *)
Definition or_else (a : option string) (d : string) : string :=
  match a with
  | Some s => if truthy a then s else d
  | None => d
  end.

(** [a || b] where both sides may be absent. *)
Definition or_opt (a b : option string) : option string :=
  if truthy a then a else b.

(** [n || d] for a number that may be [NaN] (here [None]): zero and
    [NaN] are falsy. *)
Definition num_or (n : option Z) (d : Z) : Z :=
  match n with
  | Some 0 => d
  | Some k => k
  | None => d
  end.

(** [arr.slice(0, e)]: a negative [e] counts from the end, and the
    bound is clamped to the array. *)
Definition slice0 {A} (arr : list A) (e : Z) : list A :=
  let len := Z.of_nat (List.length arr) in
  let final := if e <? 0 then Z.max (len + e) 0 else Z.min e len in
  firstn (Z.to_nat final) arr.

(** [s.split(c)[0]]: the part of [s] before the first [c]. *)
Fixpoint split_head (c : ascii) (s : string) : string :=
  match s with
  | EmptyString => EmptyString
  | String a rest =>
      if Ascii.eqb a c then EmptyString else String a (split_head c rest)
  end.

(** [arr.sort(cmp)] for a consistent comparator: the sort is stable,
    so its result is determined. *)
Definition sort {A} (cmp : A -> A -> Z) (l : list A) : list A :=
  stable_sort cmp l.

(** *** Plain objects used as string-keyed counters

    An object remembers the order in which its keys were created, but
    [Object.entries] lists the keys that are array indices first, in
    ascending numeric order. *)

Definition object (V : Type) := list (string * V).

(** The members that every plain object inherits from
    [Object.prototype]. *)
Definition inherited : list string :=
  [ "constructor"; "__defineGetter__"; "__defineSetter__"; "hasOwnProperty";
    "__lookupGetter__"; "__lookupSetter__"; "isPrototypeOf";
    "propertyIsEnumerable"; "toString"; "valueOf"; "__proto__";
    "toLocaleString" ].

(** [o[k]] for a key that [o] may not have.  Only own properties are
    looked up, so the result is that of the program for every key
    outside [inherited]; what the counters hold is stated for such
    keys only. *)
Fixpoint get {V} (o : object V) (k : string) : option V :=
  match o with
  | [] => None
  | (k', v) :: t => if String.eqb k' k then Some v else get t k
  end.

(** [o[k] = v]: an existing key keeps its place. *)
Fixpoint set {V} (o : object V) (k : string) (v : V) : object V :=
  match o with
  | [] => [(k, v)]
  | (k', v') :: t =>
      if String.eqb k' k then (k', v) :: t else (k', v') :: set t k v
  end.

Definition digit (c : ascii) : option N :=
  let n := N_of_ascii c in
  if (48 <=? n)%N && (n <=? 57)%N then Some (n - 48)%N else None.

Fixpoint digits (s : string) (acc : N) : option N :=
  match s with
  | EmptyString => Some acc
  | String c rest =>
      match digit c with
      | Some d => digits rest (10 * acc + d)%N
      | None => None
      end
  end.

(** The canonical numeric strings below [2^32 - 1]. *)
Definition array_index (k : string) : option N :=
  match k with
  | EmptyString => None
  | String c rest =>
      match digit c, rest with
      | Some 0%N, EmptyString => Some 0%N
      | Some 0%N, _ => None
      | Some d, _ =>
          match digits rest d with
          | Some n => if (n <? 4294967295)%N then Some n else None
          | None => None
          end
      | None, _ => None
      end
  end.

Definition is_index_key {V} (e : string * V) : bool :=
  match array_index (fst e) with Some _ => true | None => false end.

Definition index_cmp {V} (a b : string * V) : Z :=
  match array_index (fst a), array_index (fst b) with
  | Some x, Some y => Z.of_N x - Z.of_N y
  | _, _ => 0
  end.

Definition entries {V} (o : object V) : list (string * V) :=
  sort index_cmp (filter is_index_key o)
    ++ filter (fun e => negb (is_index_key e)) o.

End Js.

(** ** The quotes endpoint *)

Definition quotes : list string :=
  [ "First, solve the problem. Then, write the code.";
    "Code is like humor. When you have to explain it, it's bad.";
    "Programming isn't about what you know; it's about what you can figure out.";
    "The only way to learn a new programming language is by writing programs in it.";
    "Any fool can write code that a computer can understand. Good programmers write code that humans can understand.";
    "Simplicity is the soul of efficiency.";
    "Make it work, make it right, make it fast.";
    "Programming is the art of telling another human what one wants the computer to do.";
    "The function of good software is to make the complex appear simple.";
    "Good code is its own best documentation." ].

(** [GET /api/quotes].  [parsed] is the value of
    [parseInt(req.query.count)], [None] standing for [NaN]; [shuffle]
    is what the engine's [sort] does to the copy of [quotes] under the
    comparator [() => 0.5 - Math.random()]. *)
Definition quotes_handler (shuffle : list string -> list string)
    (parsed : option Z) : list string :=
  let count := Js.num_or parsed 1 in
  let shuffled := shuffle quotes in
  let selected := Js.slice0 shuffled (Z.min count 5) in
  selected.

(** A sort whose comparator ignores its arguments and answers from a
    sequence of draws of [Math.random()]: the [k]-th comparison puts
    the new element first when [draws k] holds.  Insertion is one of
    the orders in which an engine may ask. *)
Fixpoint random_insert {A} (draws : nat -> bool) (k : nat) (x : A)
    (l : list A) : list A * nat :=
  match l with
  | [] => ([x], k)
  | y :: t =>
      if draws k then (x :: y :: t, S k)
      else let (t', k') := random_insert draws (S k) x t in (y :: t', k')
  end.

Fixpoint random_sort_from {A} (draws : nat -> bool) (k : nat)
    (l : list A) : list A * nat :=
  match l with
  | [] => ([], k)
  | x :: t =>
      let (t', k') := random_sort_from draws k t in
      random_insert draws k' x t'
  end.

Definition random_sort {A} (draws : nat -> bool) (l : list A) : list A :=
  fst (random_sort_from draws 0 l).

(** ** Data exchanged with the outside *)

(** The profile object of the GitHub API, reduced to the fields read. *)
Module User.
Record t := mk { followers : Z; following : Z; public_repos : Z }.
End User.

(** A repository object, both as GitHub sends it and as
    [/api/github/repos] projects it. *)
Module Repo.
Record t := mk {
  id : Z;
  name : string;
  html_url : string;
  description : option string;
  language : option string;
  stargazers_count : Z;
  forks_count : Z;
  watchers_count : Z;
  size : Z;
  created_at : string;
  updated_at : string;
  homepage : option string;
  topics : option (list string)
}.
End Repo.

(** An entry of the event feed; [commits] is [payload.commits]. *)
Module Event.
Record t := mk {
  type : string;
  created_at : string;
  commits : option (list string);
  repo_name : string
}.
End Event.

Module Lang.
Record t := mk { name : string; count : Z }.
End Lang.

(** The payload of [/api/github/stats]; [error] is absent on the
    object that is computed and cached. *)
Module Stats.
Record t := mk {
  followers : Z;
  following : Z;
  publicRepos : Z;
  totalStars : Z;
  totalForks : Z;
  languages : list Lang.t;
  cached : bool;
  error : option string
}.
End Stats.

Module Activity.
Record t := mk { date : string; count : Z; repo : string }.
End Activity.

(** The reply of ip-api.com: [geoRes.data] may be empty. *)
Module Geo.
Record t := mk {
  status : option string;
  country : option string;
  city : option string
}.
End Geo.

(** A row of the table [visitors]; [None] is SQL [NULL]. *)
Module Visitor.
Record t := mk {
  id : Z;
  ip : option string;
  user_agent : string;
  path : string;
  country : option string;
  city : option string;
  timestamp : Z
}.
End Visitor.

Module CountryCount.
Record t := mk { country : string; count : Z }.
End CountryCount.

(** What a handler reads of the incoming request. *)
Module Req.
Record t := mk {
  x_forwarded_for : option string;
  remoteAddress : option string;
  user_agent : option string;
  query_path : option string
}.
End Req.

Inductive body : Type :=
  | ErrorBody (error : string)
  | VisitorsBody (totalViews uniqueVisitors : Z)
      (countries : list CountryCount.t)
      (recentCountry recentCity : option string) (time : Z)
  | TotalViewsBody (totalViews : Z)
  | StatsBody (data : Stats.t)
  | ReposBody (repos : list Repo.t) (cached : bool)
  | ActivityBody (activity : list Activity.t) (cached : bool).

Record response := { status : Z; json : body }.

Definition ok (b : body) : response := {| status := 200; json := b |}.
Definition status_500 (msg : string) : response :=
  {| status := 500; json := ErrorBody msg |}.

(** ** The process state *)

Module Cache.
Record t := mk {
  followers : option Stats.t;
  repos : option (list Repo.t);
  activity : option (list Activity.t);
  lastUpdated : Z
}.

Definition set_followers (c : t) (v : Stats.t) : t :=
  mk (Some v) (repos c) (activity c) (lastUpdated c).
Definition set_repos (c : t) (v : list Repo.t) : t :=
  mk (followers c) (Some v) (activity c) (lastUpdated c).
Definition set_activity (c : t) (v : list Activity.t) : t :=
  mk (followers c) (repos c) (Some v) (lastUpdated c).
Definition set_lastUpdated (c : t) (v : Z) : t :=
  mk (followers c) (repos c) (activity c) v.
End Cache.

(** [let cache = { followers: null, repos: null, activity: null,
    lastUpdated: 0 }] *)
Definition cache_init : Cache.t := Cache.mk None None None 0.

Definition CACHE_DURATION : Z := 300000.
Definition GITHUB_USER : string := "TherealVoltageLord".

(** An outbound [axios.get]. *)
Record http_request := { url : string; authorization : option string }.

(** The mutable part: the cache object, the table with its
    autoincrement counter, and what the process has emitted.  [tick]
    counts the interactions with the outside so far; the environment
    answers the [n]-th one. *)
Record State := mkState {
  cache : Cache.t;
  visitors : list Visitor.t;
  visitors_seq : Z;
  tick : nat;
  requests : list http_request;
  console : list string
}.

(** What the process does not control.  Every remote service either
    answers in its documented shape or the call is rejected ([None]),
    and a statement on the database either runs or reports an error. *)
Record Env := mkEnv {
  GITHUB_TOKEN : string;
  now : nat -> Z;
  github_user : nat -> option User.t;
  github_repos : nat -> string -> option (list Repo.t);
  github_events : nat -> option (list Event.t);
  ip_api : nat -> string -> option (option Geo.t);
  db_error : nat -> bool
}.

Definition with_cache (s : State) (c : Cache.t) : State :=
  mkState c (visitors s) (visitors_seq s) (tick s) (requests s) (console s).
Definition step (s : State) : State :=
  mkState (cache s) (visitors s) (visitors_seq s) (S (tick s))
    (requests s) (console s).
Definition sent (s : State) (r : http_request) : State :=
  mkState (cache s) (visitors s) (visitors_seq s) (tick s)
    (requests s ++ [r]) (console s).
Definition logged (s : State) (line : string) : State :=
  mkState (cache s) (visitors s) (visitors_seq s) (tick s)
    (requests s) (console s ++ [line]).
Definition inserted (s : State) (row : Visitor.t) : State :=
  mkState (cache s) (visitors s ++ [row]) (Visitor.id row) (tick s)
    (requests s) (console s).

(** ** Computations: state, environment and exceptions *)

Definition M (A : Type) : Type := Env -> State -> (A + string) * State.

Definition ret {A} (a : A) : M A := fun _ s => (inl a, s).

Definition bind {A B} (m : M A) (k : A -> M B) : M B :=
  fun e s =>
    match m e s with
    | (inl a, s') => k a e s'
    | (inr err, s') => (inr err, s')
    end.

Definition throw {A} (err : string) : M A := fun _ s => (inr err, s).

(** [try { m } catch (err) { h err }] *)
Definition try_catch {A} (m : M A) (h : string -> M A) : M A :=
  fun e s =>
    match m e s with
    | (inl a, s') => (inl a, s')
    | (inr err, s') => h err e s'
    end.

(** [await Promise.all([a, b])] where both calls are started before
    either is awaited. *)
Definition Promise_all2 {A B} (a : M A) (b : M B) : M (A * B) :=
  fun e s =>
    let (ra, s1) := a e s in
    let (rb, s2) := b e s1 in
    match ra, rb with
    | inl x, inl y => (inl (x, y), s2)
    | inr err, _ => (inr err, s2)
    | _, inr err => (inr err, s2)
    end.

Declare Scope js_scope.
Delimit Scope js_scope with js.
Notation "x <- m ;; k" := (bind m (fun x => k))
  (at level 61, m at next level, right associativity) : js_scope.
Notation "m ;;; k" := (bind m (fun _ => k))
  (at level 61, right associativity) : js_scope.
Local Open Scope js_scope.

Definition ask : M Env := fun e s => (inl e, s).
Definition get_cache : M Cache.t := fun _ s => (inl (cache s), s).
Definition put_cache (c : Cache.t) : M unit :=
  fun _ s => (inl tt, with_cache s c).

(** [Date.now()] *)
Definition Date_now : M Z := fun e s => (inl (now e (tick s)), step s).

(** [console.log] *)
Definition console_log (line : string) : M unit :=
  fun _ s => (inl tt, logged s line).

(** [axios.get(url, { headers })]: the request leaves, and the promise
    is rejected when the service gives no successful answer. *)
Definition axios_get {A} (answer : Env -> nat -> option A)
    (u : string) (auth : option string) : M A :=
  fun e s =>
    let s' := step (sent s {| url := u; authorization := auth |}) in
    match answer e (tick s) with
    | Some a => (inl a, s')
    | None => (inr "Request failed", s')
    end.

(** ** The table [visitors] *)

Module Sql.

(** [SELECT COUNT( * ) FROM visitors] *)
Definition count_all (rows : list Visitor.t) : Z :=
  Z.of_nat (List.length rows).

(** The values of a column that are not [NULL]. *)
Definition non_null (col : Visitor.t -> option string)
    (rows : list Visitor.t) : list string :=
  flat_map (fun r => match col r with Some v => [v] | None => [] end) rows.

(** [SELECT COUNT(DISTINCT ip) FROM visitors]: [NULL] is not counted. *)
Definition count_distinct_ip (rows : list Visitor.t) : Z :=
  Z.of_nat (List.length (nodup string_dec (non_null Visitor.ip rows))).

(** [WHERE country != "Unknown"]: the comparison with [NULL] is not
    true, so such rows are dropped as well. *)
Definition known_country (r : Visitor.t) : bool :=
  match Visitor.country r with
  | Some c => negb (String.eqb c "Unknown")
  | None => false
  end.

(** One more row for group [c]. *)
Fixpoint bump (c : string) (groups : list CountryCount.t)
    : list CountryCount.t :=
  match groups with
  | [] => [CountryCount.mk c 1]
  | g :: t =>
      if String.eqb (CountryCount.country g) c
      then CountryCount.mk c (CountryCount.count g + 1) :: t
      else g :: bump c t
  end.

(** [GROUP BY country] with [COUNT( * )]; groups are listed in the
    order in which their first row was inserted. *)
Definition group_by_country (rows : list Visitor.t) : list CountryCount.t :=
  fold_left (fun groups c => bump c groups)
    (non_null Visitor.country rows) [].

Definition by_count_desc (a b : CountryCount.t) : Z :=
  CountryCount.count b - CountryCount.count a.

(** [SELECT country, COUNT( * ) as count FROM visitors
     WHERE country != "Unknown" GROUP BY country
     ORDER BY count DESC LIMIT 10].
    SQL leaves the order among equal counts open; here they keep the
    order of the groups. *)
Definition top_countries (rows : list Visitor.t) : list CountryCount.t :=
  firstn 10
    (stable_sort by_count_desc
       (group_by_country (filter known_country rows))).

End Sql.

(** [db.run('INSERT INTO visitors(...) VALUES(...)', params, callback)]:
    the value handed to the callback tells whether [err] is set.  The
    row gets the next autoincrement id and the current time. *)
Definition db_run_insert (ip : option string) (user_agent path : string)
    (country city : option string) : M bool :=
  fun e s =>
    if db_error e (tick s) then (inl true, step s)
    else
      let row := Visitor.mk (visitors_seq s + 1) ip user_agent path
                   country city (now e (tick s)) in
      (inl false, step (inserted s row)).

(** [db.get] and [db.all] with a query [q]: [None] when the callback
    receives [err]. *)
Definition db_query {A} (q : list Visitor.t -> A) : M (option A) :=
  fun e s =>
    if db_error e (tick s) then (inl None, step s)
    else (inl (Some (q (visitors s))), step s).

(** ** [GET /api/visitors] *)

(** [req.headers['x-forwarded-for']?.split(',')[0] ||
    req.socket.remoteAddress] *)
Definition client_ip (req : Req.t) : option string :=
  Js.or_opt (option_map (Js.split_head ",") (Req.x_forwarded_for req))
    (Req.remoteAddress req).

(** [ip !== '::1' && ip !== '127.0.0.1'] *)
Definition not_loopback (ip : option string) : bool :=
  match ip with
  | Some a => negb (String.eqb a "::1") && negb (String.eqb a "127.0.0.1")
  | None => true
  end.

(** A template literal prints [undefined] for an absent value. *)
Definition interpolate (v : option string) : string :=
  match v with Some a => a | None => "undefined" end.

Definition Unknown : option string := Some "Unknown".

(** The inner [try] block: the pair is the final value of the
    variables [country] and [city]. *)
Definition geo_lookup (ip : option string) : M (option string * option string) :=
  try_catch
    (if not_loopback ip then
       let u := "http://ip-api.com/json/" ++ interpolate ip in
       geoRes <- axios_get (fun e n => ip_api e n u) u None ;;
       match geoRes with
       | Some data =>
           match Geo.status data with
           | Some st =>
               if String.eqb st "success"
               then ret (Geo.country data, Geo.city data)
               else ret (Unknown, Unknown)
           | None => ret (Unknown, Unknown)
           end
       | None => ret (Unknown, Unknown)
       end
     else ret (Unknown, Unknown))
    (fun geoErr =>
       console_log ("GeoIP error: " ++ geoErr) ;;;
       ret (Unknown, Unknown)).

(** The handler, run with no statement of another request between its
    own; [visitors_handler_among] below is the handler among other
    requests. *)
Definition visitors_handler (req : Req.t) : M response :=
  try_catch
    (let ip := client_ip req in
     let userAgent := Js.or_else (Req.user_agent req) "unknown" in
     let visitPath := Js.or_else (Req.query_path req) "/" in
     place <- geo_lookup ip ;;
     let (country, city) := place in
     err <- db_run_insert ip userAgent visitPath country city ;;
     if err then ret (status_500 "Database error")
     else
       totalViews <- db_query Sql.count_all ;;
       uniqueVisitors <- db_query Sql.count_distinct_ip ;;
       countries <- db_query Sql.top_countries ;;
       match totalViews, uniqueVisitors, countries with
       | Some t, Some u, Some cs =>
           time <- Date_now ;;
           ret (ok (VisitorsBody t u cs country city time))
       | _, _, _ => ret (status_500 "Database error")
       end)
    (fun error => ret (status_500 "Server error")).

(** The handler of the earlier revision of the server: no lookup, and
    only the total is read back.  Its table has no [country] and
    [city] columns, which the row type renders as [NULL]. *)
Module Variant.

Definition visitors_handler (req : Req.t) : M response :=
  let ip := client_ip req in
  let userAgent := Js.or_else (Req.user_agent req) "unknown" in
  let visitPath := Js.or_else (Req.query_path req) "/" in
  err <- db_run_insert ip userAgent visitPath None None ;;
  if err then ret (status_500 "Database error")
  else
    row <- db_query Sql.count_all ;;
    match row with
    | Some totalViews => ret (ok (TotalViewsBody totalViews))
    | None => ret (status_500 "Database error")
    end.

End Variant.

(** A handler run to its response; an error that escapes it is turned
    into a 500 by the framework. *)
Definition serve (m : M response) (e : Env) (s : State) : response * State :=
  match m e s with
  | (inl r, s') => (r, s')
  | (inr _, s') => (status_500 "Internal Server Error", s')
  end.

(** Requests handled one after the other by the same handler. *)
Fixpoint serve_all {R} (h : R -> M response) (reqs : list R)
    (e : Env) (s : State) : list response * State :=
  match reqs with
  | [] => ([], s)
  | r :: rest =>
      let (resp, s1) := serve (h r) e s in
      let (resps, s2) := serve_all h rest e s1 in
      (resp :: resps, s2)
  end.

(** ** The GitHub endpoints *)

(** [GITHUB_TOKEN ? { Authorization: `token ${GITHUB_TOKEN}` } : {}] *)
Definition headers (e : Env) : option string :=
  if Js.truthy (Some (GITHUB_TOKEN e))
  then Some ("token " ++ GITHUB_TOKEN e)
  else None.

Definition users_url : string := "https://api.github.com/users/" ++ GITHUB_USER.

(** [reposRes.data.reduce((sum, repo) => sum + repo.stargazers_count, 0)] *)
Definition totalStars (data : list Repo.t) : Z :=
  fold_left (fun sum repo => sum + Repo.stargazers_count repo) data 0.

Definition totalForks (data : list Repo.t) : Z :=
  fold_left (fun sum repo => sum + Repo.forks_count repo) data 0.

(** The body of the [forEach]: one repository added to the counters. *)
Definition count_language (languages : Js.object Z) (repo : Repo.t)
    : Js.object Z :=
  match Repo.language repo with
  | Some l =>
      if Js.truthy (Repo.language repo)
      then Js.set languages l (Js.num_or (Js.get languages l) 0 + 1)
      else languages
  | None => languages
  end.

Definition languages (data : list Repo.t) : Js.object Z :=
  fold_left count_language data [].

(** [Object.entries(languages).sort(([,a], [,b]) => b - a).slice(0, 5)
      .map(([name, count]) => ({ name, count }))] *)
Definition top_languages (data : list Repo.t) : list Lang.t :=
  map (fun e => Lang.mk (fst e) (snd e))
    (Js.slice0
       (Js.sort (fun x y => snd y - snd x) (Js.entries (languages data)))
       5).

(** [{ ...payload, cached: true }], with the advisory note when given. *)
Definition as_cached (p : Stats.t) (note : option string) : Stats.t :=
  Stats.mk (Stats.followers p) (Stats.following p) (Stats.publicRepos p)
    (Stats.totalStars p) (Stats.totalForks p) (Stats.languages p)
    true
    (match note with Some n => Some n | None => Stats.error p end).

(** [payload && Date.now() - cache.lastUpdated < CACHE_DURATION]: the
    clock is read only when the payload is there. *)
Definition fresh {A} (payload : option A) : M bool :=
  match payload with
  | Some _ =>
      c <- get_cache ;;
      t <- Date_now ;;
      ret (t - Cache.lastUpdated c <? CACHE_DURATION)
  | None => ret false
  end.

Definition stats_handler : M response :=
  try_catch
    (c <- get_cache ;;
     hit <- fresh (Cache.followers c) ;;
     match Cache.followers c, hit with
     | Some payload, true => ret (ok (StatsBody (as_cached payload None)))
     | _, _ =>
         e <- ask ;;
         res <- Promise_all2
                  (axios_get github_user users_url (headers e))
                  (let u := users_url ++ "/repos?per_page=100" in
                   axios_get (fun e n => github_repos e n u) u (headers e)) ;;
         let (userRes, reposRes) := res in
         let data :=
           Stats.mk (User.followers userRes) (User.following userRes)
             (User.public_repos userRes)
             (totalStars reposRes) (totalForks reposRes)
             (top_languages reposRes) false None in
         c <- get_cache ;;
         put_cache (Cache.set_followers c data) ;;;
         t <- Date_now ;;
         c <- get_cache ;;
         put_cache (Cache.set_lastUpdated c t) ;;;
         ret (ok (StatsBody data))
     end)
    (fun err =>
       c <- get_cache ;;
       match Cache.followers c with
       | Some payload =>
           ret (ok (StatsBody (as_cached payload (Some "Using cached data"))))
       | None => ret (status_500 "GitHub API error")
       end).

(** The projection applied to each repository of the list. *)
Definition project_repo (r : Repo.t) : Repo.t :=
  Repo.mk (Repo.id r) (Repo.name r) (Repo.html_url r)
    (Some (Js.or_else (Repo.description r) "No description provided"))
    (Repo.language r) (Repo.stargazers_count r) (Repo.forks_count r)
    (Repo.watchers_count r) (Repo.size r) (Repo.created_at r)
    (Repo.updated_at r) (Repo.homepage r)
    (Some (match Repo.topics r with Some ts => ts | None => [] end)).

Definition repos_handler : M response :=
  try_catch
    (c <- get_cache ;;
     hit <- fresh (Cache.repos c) ;;
     match Cache.repos c, hit with
     | Some payload, true => ret (ok (ReposBody payload true))
     | _, _ =>
         e <- ask ;;
         let u := users_url ++ "/repos?sort=updated&per_page=10" in
         reposRes <- axios_get (fun e n => github_repos e n u) u (headers e) ;;
         let repos := map project_repo reposRes in
         c <- get_cache ;;
         put_cache (Cache.set_repos c repos) ;;;
         t <- Date_now ;;
         c <- get_cache ;;
         put_cache (Cache.set_lastUpdated c t) ;;;
         ret (ok (ReposBody repos false))
     end)
    (fun err =>
       c <- get_cache ;;
       match Cache.repos c with
       | Some payload => ret (ok (ReposBody payload true))
       | None => ret (ok (ReposBody [] false))
       end).

(** The [map] callback of the activity list; reading [length] of an
    absent [payload.commits] throws. *)
Definition push_activity (event : Event.t) : M Activity.t :=
  match Event.commits event with
  | Some commits =>
      ret (Activity.mk (Js.split_head "T" (Event.created_at event))
             (Z.of_nat (List.length commits)) (Event.repo_name event))
  | None => throw "Cannot read properties of undefined (reading 'length')"
  end.

Fixpoint mapM {A B} (f : A -> M B) (l : list A) : M (list B) :=
  match l with
  | [] => ret []
  | x :: t => y <- f x ;; ys <- mapM f t ;; ret (y :: ys)
  end.

Definition activity_handler : M response :=
  try_catch
    (c <- get_cache ;;
     hit <- fresh (Cache.activity c) ;;
     match Cache.activity c, hit with
     | Some payload, true => ret (ok (ActivityBody payload true))
     | _, _ =>
         e <- ask ;;
         commitsRes <- axios_get github_events
                         (users_url ++ "/events?per_page=100") (headers e) ;;
         activity <- mapM push_activity
                       (filter (fun event =>
                                  String.eqb (Event.type event) "PushEvent")
                          commitsRes) ;;
         c <- get_cache ;;
         put_cache (Cache.set_activity c activity) ;;;
         t <- Date_now ;;
         c <- get_cache ;;
         put_cache (Cache.set_lastUpdated c t) ;;;
         ret (ok (ActivityBody activity false))
     end)
    (fun err => ret (ok (ActivityBody [] false))).

(** The three endpoints and the slot of the cache each one serves. *)
Inductive kind := KStats | KRepos | KActivity.

Definition handler (k : kind) : M response :=
  match k with
  | KStats => stats_handler
  | KRepos => repos_handler
  | KActivity => activity_handler
  end.

Definition warm (k : kind) (c : Cache.t) : bool :=
  match k with
  | KStats => match Cache.followers c with Some _ => true | None => false end
  | KRepos => match Cache.repos c with Some _ => true | None => false end
  | KActivity => match Cache.activity c with Some _ => true | None => false end
  end.

(** ** [GET /api/visitors/stats] *)

(** A row of the daily series. *)
Module Daily.
Record t := mk { date : Z; visits : Z; uniqueVisitors : Z }.
End Daily.

Module SqlStats.

(** [DATE(timestamp)]: the column holds the time of the insertion,
    here in milliseconds, and its date is the number of the day. *)
Definition DATE (timestamp : Z) : Z := timestamp / 86400000.

Definition on_date (d : Z) (rows : list Visitor.t) : list Visitor.t :=
  filter (fun r => DATE (Visitor.timestamp r) =? d) rows.

(** The groups of [GROUP BY DATE(timestamp)]. *)
Definition dates (rows : list Visitor.t) : list Z :=
  nodup Z.eq_dec (map (fun r => DATE (Visitor.timestamp r)) rows).

Definition by_date_desc (a b : Daily.t) : Z := Daily.date b - Daily.date a.

(** [SELECT DATE(timestamp) as date, COUNT( * ) as visits,
       COUNT(DISTINCT ip) as uniqueVisitors
     FROM visitors GROUP BY DATE(timestamp)
     ORDER BY date DESC LIMIT 30] *)
Definition daily_series (rows : list Visitor.t) : list Daily.t :=
  firstn 30
    (stable_sort by_date_desc
       (map (fun d => Daily.mk d (Sql.count_all (on_date d rows))
                        (Sql.count_distinct_ip (on_date d rows)))
          (dates rows))).

End SqlStats.

(** The handler answers with the rows themselves or with an error. *)
Definition visitors_stats_handler : M (response + list Daily.t) :=
  rows <- db_query SqlStats.daily_series ;;
  match rows with
  | None => ret (inl (status_500 "Database error"))
  | Some rows => ret (inr rows)
  end.

(** ** The earlier revision: followers, repositories and quotes

    The first revision of the server keeps two payloads and one
    [timestamp] in [statsCache]. Its handlers are written here with
    the state passed along. *)

Module VariantGithub.

Definition quotes : list string :=
  [ "First, solve the problem. Then, write the code.";
    "Code is like humor. When you have to explain it, it's bad.";
    "Programming isn't about what you know; it's about what you can figure out.";
    "The only way to learn a new programming language is by writing programs in it.";
    "Any fool can write code that a computer can understand. Good programmers write code that humans can understand." ].

(** The payload of [/api/github/followers]. *)
Module Payload.
Record t := mk {
  followers : Z;
  following : Z;
  publicRepos : Z;
  cached : bool;
  error : option string
}.
End Payload.

(** A repository as [/api/github/repos] lists it. *)
Module Summary.
Record t := mk {
  name : string;
  html_url : string;
  description : string;
  language : option string;
  stargazers_count : Z;
  forks_count : Z;
  updated_at : string
}.
End Summary.

Module StatsCache.
Record t := mk {
  followers : option Payload.t;
  repos : option (list Summary.t);
  timestamp : Z
}.
End StatsCache.

(** [let statsCache = { followers: null, repos: null, timestamp: 0 }] *)
Definition statsCache_init : StatsCache.t := StatsCache.mk None None 0.

Record State := mkState {
  statsCache : StatsCache.t;
  tick : nat;
  requests : list http_request
}.

Inductive body : Type :=
  | ErrorBody (error : string)
  | FollowersBody (data : Payload.t)
  | ReposBody (repos : list Summary.t)
  | QuotesBody (quotes : list string).

Record response := { status : Z; json : body }.

Definition ok (b : body) : response := {| status := 200; json := b |}.

(** One interaction with the outside, and one request sent. *)
Definition step (s : State) : State :=
  mkState (statsCache s) (S (tick s)) (requests s).

Definition call (s : State) (u : string) (auth : option string) : State :=
  mkState (statsCache s) (S (tick s))
    (requests s ++ [{| url := u; authorization := auth |}]).

(** The [catch] block of [/api/github/followers]. *)
Definition followers_catch (s : State) : response * State :=
  match StatsCache.followers (statsCache s) with
  | Some payload =>
      (ok (FollowersBody
             (Payload.mk (Payload.followers payload)
                (Payload.following payload) (Payload.publicRepos payload)
                true (Some "Using cached data"))), s)
  | None => ({| status := 500; json := ErrorBody "GitHub API error" |}, s)
  end.

(** The part of the [try] block after the test of the cache, started
    in state [s]. *)
Definition followers_fetch (e : Env) (s : State) : response * State :=
  let s1 := call s users_url (headers e) in
  let u2 := users_url ++ "/repos?per_page=1" in
  let s2 := call s1 u2 (headers e) in
  match github_user e (tick s), github_repos e (tick s1) u2 with
  | Some userRes, Some reposRes =>
      let data :=
        Payload.mk (User.followers userRes) (User.following userRes)
          (User.public_repos userRes) false None in
      let t := now e (tick s2) in
      (ok (FollowersBody data),
       mkState
         (StatsCache.mk (Some data) (StatsCache.repos (statsCache s2)) t)
         (S (tick s2)) (requests s2))
  | _, _ => followers_catch s2
  end.

Definition followers_handler (e : Env) (s : State) : response * State :=
  match StatsCache.followers (statsCache s) with
  | Some payload =>
      if now e (tick s) - StatsCache.timestamp (statsCache s) <? 300000
      then (ok (FollowersBody payload), step s)
      else followers_fetch e (step s)
  | None => followers_fetch e s
  end.

Definition project_repo (r : Repo.t) : Summary.t :=
  Summary.mk (Repo.name r) (Repo.html_url r)
    (Js.or_else (Repo.description r) "No description")
    (Repo.language r) (Repo.stargazers_count r) (Repo.forks_count r)
    (Repo.updated_at r).

Definition repos_catch (s : State) : response * State :=
  match StatsCache.repos (statsCache s) with
  | Some payload => (ok (ReposBody payload), s)
  | None => (ok (ReposBody []), s)
  end.

Definition repos_fetch (e : Env) (s : State) : response * State :=
  let u := users_url ++ "/repos?sort=updated&per_page=6" in
  let s1 := call s u (headers e) in
  match github_repos e (tick s) u with
  | Some reposRes =>
      let repos := map project_repo reposRes in
      let t := now e (tick s1) in
      (ok (ReposBody repos),
       mkState
         (StatsCache.mk (StatsCache.followers (statsCache s1)) (Some repos) t)
         (S (tick s1)) (requests s1))
  | None => repos_catch s1
  end.

Definition repos_handler (e : Env) (s : State) : response * State :=
  match StatsCache.repos (statsCache s) with
  | Some payload =>
      if now e (tick s) - StatsCache.timestamp (statsCache s) <? 300000
      then (ok (ReposBody payload), step s)
      else repos_fetch e (step s)
  | None => repos_fetch e s
  end.

(** [[...quotes].sort(() => 0.5 - Math.random()).slice(0, 3)] *)
Definition quotes_handler (shuffle : list string -> list string) : response :=
  let randomQuotes := Js.slice0 (shuffle quotes) 3 in
  ok (QuotesBody randomQuotes).

End VariantGithub.

(** ** [GET /api/visitors] among other requests

    The handler issues its [INSERT] and its three counts as separate
    statements, without a transaction: the [INSERT]s of other requests
    land between them. Here the statements run in the order in which
    they are issued, and before each one the rows of the other
    requests are added to the table. [visitors_handler] above is the
    run in which nothing lands. *)

(** What a request does not control in the store: [arrivals n] are the
    rows that other requests insert just before the statement run at
    interaction [n], and [order_by_count] is the order in which the
    store lists the groups, which SQL fixes only up to equal counts. *)
Record Outside := mkOutside {
  arrivals : nat -> list Visitor.t;
  order_by_count : list CountryCount.t -> list CountryCount.t
}.

(** The rows of other requests with the ids that the table gives
    them, after [seq]. *)
Fixpoint renumber (seq : Z) (rows : list Visitor.t) : list Visitor.t :=
  match rows with
  | [] => []
  | r :: rest =>
      Visitor.mk (seq + 1) (Visitor.ip r) (Visitor.user_agent r)
        (Visitor.path r) (Visitor.country r) (Visitor.city r)
        (Visitor.timestamp r)
      :: renumber (seq + 1) rest
  end.

(** The state once the rows due before the next statement are in. *)
Definition landed (o : Outside) (s : State) : State :=
  mkState (cache s)
    (visitors s ++ renumber (visitors_seq s) (arrivals o (tick s)))
    (visitors_seq s + Z.of_nat (List.length (arrivals o (tick s))))
    (tick s) (requests s) (console s).

(** The query of the countries under the order of the store. *)
Definition top_countries_by
    (order : list CountryCount.t -> list CountryCount.t)
    (rows : list Visitor.t) : list CountryCount.t :=
  firstn 10 (order (Sql.group_by_country (filter Sql.known_country rows))).

Definition db_run_insert_among (o : Outside) (ip : option string)
    (user_agent path : string) (country city : option string) : M bool :=
  fun e s => db_run_insert ip user_agent path country city e (landed o s).

Definition db_query_among {A} (o : Outside) (q : list Visitor.t -> A)
    : M (option A) :=
  fun e s => db_query q e (landed o s).

Definition visitors_handler_among (o : Outside) (req : Req.t) : M response :=
  try_catch
    (let ip := client_ip req in
     let userAgent := Js.or_else (Req.user_agent req) "unknown" in
     let visitPath := Js.or_else (Req.query_path req) "/" in
     place <- geo_lookup ip ;;
     let (country, city) := place in
     err <- db_run_insert_among o ip userAgent visitPath country city ;;
     if err then ret (status_500 "Database error")
     else
       totalViews <- db_query_among o Sql.count_all ;;
       uniqueVisitors <- db_query_among o Sql.count_distinct_ip ;;
       countries <- db_query_among o
                      (top_countries_by (order_by_count o)) ;;
       match totalViews, uniqueVisitors, countries with
       | Some t, Some u, Some cs =>
           time <- Date_now ;;
           ret (ok (VisitorsBody t u cs country city time))
       | _, _, _ => ret (status_500 "Database error")
       end)
    (fun error => ret (status_500 "Server error")).

(** ** The routes that share the state

    [app.get] binds each path to its handler; a request changes the
    state as its handler does. *)
Inductive endpoint : Type :=
  | Visit (req : Req.t)
  | DailyStats
  | Github (k : kind).

Definition run_endpoint (ep : endpoint) (e : Env) (s : State) : State :=
  match ep with
  | Visit req => snd (serve (visitors_handler req) e s)
  | DailyStats => snd (visitors_stats_handler e s)
  | Github k => snd (serve (handler k) e s)
  end.

(** Requests handled one after the other. *)
Definition run_all (eps : list endpoint) (e : Env) (s : State) : State :=
  fold_left (fun s ep => run_endpoint ep e s) eps s.

(** * Vocabulary of the statements *)

(** The comparator [(a, b) => key b - key a]. *)
Definition descending {A} (key : A -> Z) (a b : A) : Z := key b - key a.

(** No element is followed, at any distance, by one with a larger key. *)
Definition sorted_desc {A} (key : A -> Z) : list A -> Prop :=
  StronglySorted (fun a b => key b <= key a).

(** The number of repositories of [data] whose language is [l]. *)
Definition repos_in (l : string) (data : list Repo.t) : Z :=
  Z.of_nat (List.length
    (filter (fun r => match Repo.language r with
                      | Some l' => String.eqb l' l
                      | None => false
                      end) data)).

(** Invariant of the [forEach]: the keys stay distinct and non-empty,
    and each counter is positive and equal to the number of
    repositories seen with that language. *)
Definition counts (seen : list Repo.t) (o : Js.object Z) : Prop :=
  NoDup (map fst o) /\
  forall l, Js.get o l =
            if (repos_in l seen =? 0) || String.eqb l "" then None
            else Some (repos_in l seen).

(** The reply of the lookup started at interaction [n] carries no
    location: the call was rejected, the body was empty, or its
    [status] is not ["success"]. *)
Definition geo_unsuccessful (e : Env) (n : nat) (ip : option string) : bool :=
  match ip_api e n ("http://ip-api.com/json/" ++ interpolate ip) with
  | Some (Some data) =>
      match Geo.status data with
      | Some st => negb (String.eqb st "success")
      | None => true
      end
  | Some None => true
  | None => true
  end.

(** What a run leaves alone. *)
Definition same_store (s s' : State) : Prop :=
  visitors s' = visitors s /\ visitors_seq s' = visitors_seq s /\
  cache s' = cache s.

(** What a response of the counter says about the table: the handler
    adds at most one row, and a success reports the aggregates of the
    table that contains the new row. *)
Definition grew (s s' : State) : Prop :=
  exists row, visitors s' = (visitors s ++ [row])%list.

Definition reports (r : response) (rows : list Visitor.t) : Prop :=
  match json r with
  | VisitorsBody t u cs _ _ _ =>
      t = Sql.count_all rows /\
      u = Sql.count_distinct_ip rows /\
      cs = Sql.top_countries rows
  | TotalViewsBody t => t = Sql.count_all rows
  | _ => False
  end.

Definition counter_spec (h : Req.t -> M response) : Prop :=
  forall req e s r s',
    serve (h req) e s = (r, s') ->
    (r = status_500 "Database error" /\
     (visitors s' = visitors s \/ grew s s')) \/
    (status r = 200 /\ grew s s' /\ reports r (visitors s')).

(** The responses of a run, and what counts as a success. *)
Definition succeeded (r : response) : bool := status r =? 200.

Definition total_views (r : response) : option Z :=
  match json r with
  | VisitorsBody t _ _ _ _ _ => Some t
  | TotalViewsBody t => Some t
  | _ => None
  end.

Definition successes (rs : list response) : Z :=
  Z.of_nat (List.length (filter succeeded rs)).

(** The first test of a handler succeeds: its slot is set and the
    clock read at this point is within [CACHE_DURATION] of
    [lastUpdated]. *)
Definition serves_from_cache (k : kind) (e : Env) (s : State) : bool :=
  warm k (cache s) &&
  (now e (tick s) - Cache.lastUpdated (cache s) <? CACHE_DURATION).

(** The interaction at which the handler, not served from the cache,
    starts its upstream call: the clock has been read only when the
    slot was set. *)
Definition fetch_tick (k : kind) (s : State) : nat :=
  if warm k (cache s) then S (tick s) else tick s.

Definition stats_requests (e : Env) : list http_request :=
  [ {| url := users_url; authorization := headers e |};
    {| url := users_url ++ "/repos?per_page=100";
       authorization := headers e |} ].

Definition repos_request (e : Env) : http_request :=
  {| url := users_url ++ "/repos?sort=updated&per_page=10";
     authorization := headers e |}.

Definition activity_request (e : Env) : http_request :=
  {| url := users_url ++ "/events?per_page=100";
     authorization := headers e |}.

(** The payload computed from the two replies of GitHub. *)
Definition stats_of (u : User.t) (rs : list Repo.t) : Stats.t :=
  Stats.mk (User.followers u) (User.following u) (User.public_repos u)
    (totalStars rs) (totalForks rs) (top_languages rs) false None.

(** A response that carries the payload of slot [k] of cache [c],
    marked as cached. *)
Definition cached_response (k : kind) (c : Cache.t) (r : response) : Prop :=
  status r = 200 /\
  match k with
  | KStats => exists p, Cache.followers c = Some p /\
                        json r = StatsBody (as_cached p None)
  | KRepos => exists p, Cache.repos c = Some p /\ json r = ReposBody p true
  | KActivity => exists p, Cache.activity c = Some p /\
                           json r = ActivityBody p true
  end.

(** The push events of the feed, and whether one carries its commits. *)
Definition pushes (events : list Event.t) : list Event.t :=
  filter (fun event => String.eqb (Event.type event) "PushEvent") events.

Definition has_commits (event : Event.t) : bool :=
  match Event.commits event with Some _ => true | None => false end.

(** GitHub answers the call or calls that the handler of [k] starts
    at interaction [n], in a form the handler can process. *)
Definition upstream_ok (k : kind) (e : Env) (n : nat) : bool :=
  match k with
  | KStats =>
      match github_user e n,
            github_repos e (S n) (users_url ++ "/repos?per_page=100") with
      | Some _, Some _ => true
      | _, _ => false
      end
  | KRepos =>
      match github_repos e n
              (users_url ++ "/repos?sort=updated&per_page=10") with
      | Some _ => true
      | None => false
      end
  | KActivity =>
      match github_events e n with
      | Some events => forallb has_commits (pushes events)
      | None => false
      end
  end.

(** The payload stored for an endpoint. *)
Inductive payload : Type :=
  | PStats (p : Stats.t)
  | PRepos (p : list Repo.t)
  | PActivity (p : list Activity.t).

Definition slot (k : kind) (c : Cache.t) : option payload :=
  match k with
  | KStats => option_map PStats (Cache.followers c)
  | KRepos => option_map PRepos (Cache.repos c)
  | KActivity => option_map PActivity (Cache.activity c)
  end.

(** What each handler answers when its upstream call fails. *)
Definition failure_response (k : kind) (c : Cache.t) : response :=
  match k with
  | KStats =>
      match Cache.followers c with
      | Some p => ok (StatsBody (as_cached p (Some "Using cached data")))
      | None => status_500 "GitHub API error"
      end
  | KRepos =>
      match Cache.repos c with
      | Some p => ok (ReposBody p true)
      | None => ok (ReposBody [] false)
      end
  | KActivity => ok (ActivityBody [] false)
  end.

(** The requests a handler sends when it is not served from the cache. *)
Definition requests_of (k : kind) (e : Env) : list http_request :=
  match k with
  | KStats => stats_requests e
  | KRepos => [repos_request e]
  | KActivity => [activity_request e]
  end.

(** The request of the lookup for [ip]; it carries no header. *)
Definition lookup_request (ip : option string) : http_request :=
  {| url := "http://ip-api.com/json/" ++ interpolate ip;
     authorization := None |}.

(** The interaction at which the visit is inserted: the lookup, when
    there is one, comes first. *)
Definition insert_tick (req : Req.t) (s : State) : nat :=
  if not_loopback (client_ip req) then S (tick s) else tick s.

(** The country and city that the lookup started at interaction [n]
    yields for [ip]: those of a reply whose [status] is ["success"],
    and ["Unknown"] twice in every other case. *)
Definition located (e : Env) (n : nat) (ip : option string)
    : option string * option string :=
  if not_loopback ip then
    match ip_api e n ("http://ip-api.com/json/" ++ interpolate ip) with
    | Some (Some data) =>
        match Geo.status data with
        | Some st =>
            if String.eqb st "success"
            then (Geo.country data, Geo.city data)
            else (Unknown, Unknown)
        | None => (Unknown, Unknown)
        end
    | _ => (Unknown, Unknown)
    end
  else (Unknown, Unknown).

(** The row that a visit inserts at interaction [n]. *)
Definition visit_row (req : Req.t) (e : Env) (s : State) : Visitor.t :=
  let n := insert_tick req s in
  let place := located e (tick s) (client_ip req) in
  Visitor.mk (visitors_seq s + 1) (client_ip req)
    (Js.or_else (Req.user_agent req) "unknown")
    (Js.or_else (Req.query_path req) "/")
    (fst place) (snd place) (now e n).

(** Whether the character [c] occurs in [s]. *)
Fixpoint mentions (c : ascii) (s : string) : bool :=
  match s with
  | EmptyString => false
  | String a rest => Ascii.eqb a c || mentions c rest
  end.

(** The number of rows of the table whose country is [c]. *)
Definition visits_from (c : string) (rows : list Visitor.t) : Z :=
  Z.of_nat (count_occ string_dec (Sql.non_null Visitor.country rows) c).

(** Invariant of the grouping: one group per value seen, each with the
    number of times the value was seen. *)
Definition tallied (seen : list string) (groups : list CountryCount.t)
    : Prop :=
  NoDup (map CountryCount.country groups) /\
  (forall c, In c seen -> In c (map CountryCount.country groups)) /\
  (forall g, In g groups ->
     CountryCount.count g =
       Z.of_nat (count_occ string_dec seen (CountryCount.country g)) /\
     0 < CountryCount.count g).

(** The earlier revision: the first test of a handler succeeds for the
    payload [slot] of its endpoint. *)
Definition variant_hit {A} (slot : option A) (e : Env)
    (s : VariantGithub.State) : bool :=
  match slot with
  | Some _ =>
      now e (VariantGithub.tick s)
        - VariantGithub.StatsCache.timestamp (VariantGithub.statsCache s)
        <? 300000
  | None => false
  end.

(** The interaction at which such a handler starts its first call. *)
Definition variant_fetch_tick {A} (slot : option A)
    (s : VariantGithub.State) : nat :=
  match slot with
  | Some _ => S (VariantGithub.tick s)
  | None => VariantGithub.tick s
  end.

(** Dates that strictly decrease along the list. *)
Definition strictly_desc (series : list Daily.t) : Prop :=
  StronglySorted (fun a b => Daily.date b < Daily.date a) series.

(** A request that carries no [Authorization] header, or goes to the
    API of GitHub. *)
Definition confined (r : http_request) : Prop :=
  authorization r = None \/
  String.prefix "https://api.github.com/" (url r) = true.

(** The visits among the requests handled. *)
Definition visits_among (eps : list endpoint) : nat :=
  List.length (filter (fun ep => match ep with Visit _ => true | _ => false end)
                 eps).

(** Whether [ip] is the address of a row. *)
Definition seen_before (ip : option string) (rows : list Visitor.t) : bool :=
  match ip with
  | Some a => if in_dec string_dec a (Sql.non_null Visitor.ip rows)
              then true else false
  | None => false
  end.

(** No other request, and the groups ordered as in [Sql.top_countries]. *)
Definition quiet : Outside :=
  mkOutside (fun _ => []) (stable_sort Sql.by_count_desc).


(** The number of rows that other requests insert just before the
    [k]-th statement of a visit ([0] the [INSERT], [1] to [3] the
    counts). *)
Definition landing (o : Outside) (req : Req.t) (s : State) (k : nat) : Z :=
  Z.of_nat (List.length (arrivals o (insert_tick req s + k))).

(** A loopback address in the usual sense: [::1], the block
    [127.0.0.0/8], and the addresses of that block mapped into IPv6. *)
Definition loopback_address (a : string) : bool :=
  String.eqb a "::1" || String.prefix "127." a
  || String.prefix "::ffff:127." a.

(** No repository of [data] has a language named like a member that
    every object inherits. *)
Definition own_names (data : list Repo.t) : bool :=
  forallb (fun r => match Repo.language r with
                    | Some l => if in_dec string_dec l Js.inherited
                                then false else true
                    | None => true
                    end) data.

(** * Inputs used to exercise the statements *)

(** The shuffle of an engine that sorts by insertion, under draws of
    [Math.random()] that alternate around 0.5. *)
Definition engine_shuffle : list string -> list string :=
  random_sort Nat.even.

Definition state_init : State := mkState cache_init [] 0 0 [] [].

(** A clock that advances by one second per interaction. *)
Definition clock_1s (n : nat) : Z := Z.of_nat n * 1000.

(** No remote service answers; the database works. *)
Definition env_offline : Env :=
  mkEnv "" clock_1s (fun _ => None) (fun _ _ => None) (fun _ => None)
    (fun _ _ => None) (fun _ => false).

Definition repo_c : Repo.t :=
  Repo.mk 1 "volt" "https://github.com/TherealVoltageLord/volt" None
    (Some "C") 5 1 5 10 "2024-01-01T00:00:00Z" "2024-02-01T00:00:00Z"
    None None.

Definition repo_plain : Repo.t :=
  Repo.mk 2 "notes" "https://github.com/TherealVoltageLord/notes"
    (Some "Notes") None 7 2 7 3 "2024-01-05T00:00:00Z" "2024-03-01T00:00:00Z"
    None (Some ["docs"]).

Definition push_event : Event.t :=
  Event.mk "PushEvent" "2024-03-01T10:00:00Z" (Some ["c0ffee"; "beef"])
    "TherealVoltageLord/volt".

(** GitHub answers every call; the lookup service does not. *)
Definition env_online : Env :=
  mkEnv "" clock_1s (fun _ => Some (User.mk 10 2 3))
    (fun _ _ => Some [repo_c; repo_plain]) (fun _ => Some [push_event])
    (fun _ _ => None) (fun _ => false).

(** The second statement on the database fails, the others work. *)
Definition env_read_failure : Env :=
  mkEnv "" clock_1s (fun _ => None) (fun _ _ => None) (fun _ => None)
    (fun _ _ => None) (fun n => Nat.eqb n 1).

Definition req_local : Req.t := Req.mk None (Some "127.0.0.1") None None.
Definition req_remote : Req.t :=
  Req.mk (Some "203.0.113.7, 10.0.0.1") (Some "10.0.0.1")
    (Some "curl/8.0") None.

(** An activity list cached at time 0 and a clock that is far past it. *)
Definition state_activity_cached : State :=
  mkState
    (Cache.mk None None
       (Some [Activity.mk "2024-03-01" 2 "TherealVoltageLord/volt"]) 0)
    [] 0 400 [] [].

(** Three earlier visits from two countries and one that was not
    located. *)
Definition state_visited : State :=
  mkState cache_init
    [ Visitor.mk 1 (Some "203.0.113.7") "curl/8.0" "/" (Some "France")
        (Some "Paris") 0;
      Visitor.mk 2 (Some "198.51.100.2") "curl/8.0" "/" (Some "Peru")
        (Some "Lima") 10;
      Visitor.mk 3 (Some "198.51.100.2") "curl/8.0" "/" (Some "Peru")
        (Some "Lima") 20;
      Visitor.mk 4 (Some "192.0.2.9") "curl/8.0" "/" (Some "Unknown")
        (Some "Unknown") 30 ]
    4 0 [] [].

(** A statistics payload stored long ago, and nothing else. *)
Definition state_stats_cached : State :=
  mkState
    (Cache.mk (Some (stats_of (User.mk 10 2 3) [repo_c])) None None 0)
    [] 0 400 [] [].

(** The same payload, stored 100 seconds before the clock of the next
    interaction. *)
Definition state_stats_fresh : State :=
  mkState
    (Cache.mk (Some (stats_of (User.mk 10 2 3) [repo_c])) None None 0)
    [] 0 100 [] [].

(** The lookup service locates every address in Lima; GitHub is not
    reachable. *)
Definition geo_lima : Geo.t :=
  Geo.mk (Some "success") (Some "Peru") (Some "Lima").

Definition env_located : Env :=
  mkEnv "" clock_1s (fun _ => None) (fun _ _ => None) (fun _ => None)
    (fun _ _ => Some (Some geo_lima)) (fun _ => false).

(** A feed in which the second push event has lost its commits. *)
Definition push_event_bare : Event.t :=
  Event.mk "PushEvent" "2024-03-02T09:30:00Z" None "TherealVoltageLord/notes".

Definition env_bare_push : Env :=
  mkEnv "" clock_1s (fun _ => Some (User.mk 10 2 3))
    (fun _ _ => Some [repo_c; repo_plain])
    (fun _ => Some [push_event; push_event_bare])
    (fun _ _ => None) (fun _ => false).

(** GitHub serves the profile and rejects every other call. *)
Definition env_profile_only : Env :=
  mkEnv "" clock_1s (fun _ => Some (User.mk 10 2 3))
    (fun _ _ => None) (fun _ => None) (fun _ _ => None) (fun _ => false).

(** The earlier revision at its start, and with a followers payload
    stored long before the clock of the next interaction. *)
Definition variant_state_init : VariantGithub.State :=
  VariantGithub.mkState VariantGithub.statsCache_init 0 [].

Definition variant_payload : VariantGithub.Payload.t :=
  VariantGithub.Payload.mk 10 2 3 false None.

Definition variant_state_stale : VariantGithub.State :=
  VariantGithub.mkState
    (VariantGithub.StatsCache.mk (Some variant_payload) None 0) 400 [].

(** A visit from another address that lands between the two counts of
    a request for which the lookup is skipped: statement 0 is the
    [INSERT], 1 reads the total, 2 the distinct addresses. *)
Definition other_row : Visitor.t :=
  Visitor.mk 0 (Some "198.51.100.2") "curl/8.0" "/" (Some "Peru")
    (Some "Lima") 1500.

Definition outside_between_reads : Outside :=
  mkOutside (fun n => if Nat.eqb n 2 then [other_row] else [])
    (stable_sort Sql.by_count_desc).

(** A local client as a dual-stack socket reports it. *)
Definition req_mapped : Req.t :=
  Req.mk None (Some "::ffff:127.0.0.1") None None.

(** * Properties *)

(** ** Sorting *)

Lemma in_firstn_in {A} (n : nat) (l : list A) (x : A) :
  In x (firstn n l) -> In x l.
Proof.
  intros H. rewrite <- (firstn_skipn n l). apply in_or_app. now left.
Qed.

Section StableSort.

Context {A : Type} (key : A -> Z).

Lemma sort_insert_perm (cmp : A -> A -> Z) x l :
  Permutation (x :: l) (sort_insert cmp x l).
Proof.
  induction l as [|y t IH]; simpl.
  - apply Permutation_refl.
  - destruct (cmp x y <=? 0).
    + apply Permutation_refl.
    + eapply perm_trans; [apply perm_swap|].
      apply perm_skip, IH.
Qed.

Lemma stable_sort_perm (cmp : A -> A -> Z) l :
  Permutation l (stable_sort cmp l).
Proof.
  induction l as [|x t IH]; simpl.
  - constructor.
  - eapply perm_trans; [apply perm_skip, IH|apply sort_insert_perm].
Qed.

Lemma sort_insert_sorted x l :
  sorted_desc key l -> sorted_desc key (sort_insert (descending key) x l).
Proof.
  unfold sorted_desc, descending.
  induction 1 as [|y t Hs IH Hy]; simpl.
  - repeat constructor.
  - destruct (Z.leb_spec (key y - key x) 0) as [Hle|Hgt].
    + constructor; [constructor; assumption|].
      constructor; [lia|].
      rewrite Forall_forall in *. intros z Hz. specialize (Hy z Hz). lia.
    + constructor; [exact IH|].
      rewrite Forall_forall in *. intros z Hz.
      apply (Permutation_in z (Permutation_sym (sort_insert_perm _ x t))) in Hz.
      destruct Hz as [->|Hz]; [lia|auto].
Qed.

Lemma stable_sort_sorted l :
  sorted_desc key (stable_sort (descending key) l).
Proof.
  induction l as [|x t IH]; simpl.
  - constructor.
  - apply sort_insert_sorted, IH.
Qed.

Lemma sorted_desc_firstn n l :
  sorted_desc key l -> sorted_desc key (firstn n l).
Proof.
  unfold sorted_desc. revert l.
  induction n as [|n IH]; intros l Hl; simpl; [constructor|].
  destruct l as [|x t]; [constructor|].
  inversion Hl as [|? ? Ht Hx]; subst.
  constructor; [apply IH, Ht|].
  rewrite Forall_forall in *. intros z Hz.
  apply Hx. eapply in_firstn_in; eauto.
Qed.

End StableSort.

(** ** The queries on [visitors] *)

Lemma nodup_length_le (l : list string) :
  (List.length (nodup string_dec l) <= List.length l)%nat.
Proof.
  induction l as [|x t IH]; simpl; [lia|].
  destruct (in_dec string_dec x t); simpl; lia.
Qed.

Lemma non_null_length_le col rows :
  (List.length (Sql.non_null col rows) <= List.length rows)%nat.
Proof.
  induction rows as [|r t IH]; simpl; [lia|].
  rewrite length_app. destruct (col r); simpl; lia.
Qed.

Lemma count_distinct_ip_le_count_all rows :
  Sql.count_distinct_ip rows <= Sql.count_all rows.
Proof.
  unfold Sql.count_distinct_ip, Sql.count_all.
  pose proof (nodup_length_le (Sql.non_null Visitor.ip rows)).
  pose proof (non_null_length_le Visitor.ip rows).
  lia.
Qed.

Lemma count_all_app rows row :
  Sql.count_all (rows ++ [row]) = Sql.count_all rows + 1.
Proof. unfold Sql.count_all. rewrite length_app. simpl. lia. Qed.

Lemma bump_country c groups g :
  In g (Sql.bump c groups) ->
  CountryCount.country g = c \/ In g groups.
Proof.
  induction groups as [|h t IH]; simpl.
  - intros [<-|[]]. now left.
  - destruct (String.eqb (CountryCount.country h) c).
    + intros [<-|H]; [now left|now right; right].
    + intros [<-|H]; [now right; left|].
      destruct (IH H); [now left|now right; right].
Qed.

Lemma group_fold_country cs : forall acc g,
  In g (fold_left (fun groups c => Sql.bump c groups) cs acc) ->
  In (CountryCount.country g) cs \/ In g acc.
Proof.
  induction cs as [|c t IH]; simpl; intros acc g H; [now right|].
  destruct (IH _ _ H) as [Ht|Hb]; [now left; right|].
  destruct (bump_country _ _ _ Hb) as [<-|Ha]; [now left; left|now right].
Qed.

Lemma known_country_not_Unknown rows c :
  In c (Sql.non_null Visitor.country (filter Sql.known_country rows)) ->
  c <> "Unknown".
Proof.
  unfold Sql.non_null. rewrite in_flat_map.
  intros (r & Hr & Hc). apply filter_In in Hr as [_ Hk].
  unfold Sql.known_country in Hk.
  destruct (Visitor.country r) as [c'|]; [|discriminate].
  destruct Hc as [<-|[]].
  intros ->. discriminate.
Qed.

Lemma top_countries_known rows g :
  In g (Sql.top_countries rows) -> CountryCount.country g <> "Unknown".
Proof.
  unfold Sql.top_countries, Sql.group_by_country. intros H.
  apply in_firstn_in in H.
  apply (Permutation_in g (Permutation_sym (stable_sort_perm _ _))) in H.
  apply group_fold_country in H as [H|[]].
  eapply known_country_not_Unknown, H.
Qed.

Lemma top_countries_sorted rows :
  sorted_desc CountryCount.count (Sql.top_countries rows).
Proof.
  unfold Sql.top_countries.
  apply sorted_desc_firstn.
  apply (stable_sort_sorted CountryCount.count).
Qed.

(** ** The quotes *)

Lemma quotes_NoDup : NoDup quotes.
Proof.
  assert (H : nodup string_dec quotes = quotes) by (vm_compute; reflexivity).
  rewrite <- H. apply NoDup_nodup.
Qed.

Lemma NoDup_firstn_of {A} (n : nat) (l : list A) :
  NoDup l -> NoDup (firstn n l).
Proof.
  intros H. rewrite <- (firstn_skipn n l) in H.
  eapply NoDup_app_remove_r, H.
Qed.

Lemma slice0_length {A} (arr : list A) (e : Z) :
  Z.of_nat (List.length (Js.slice0 arr e)) =
  if e <? 0 then Z.max (Z.of_nat (List.length arr) + e) 0
  else Z.min e (Z.of_nat (List.length arr)).
Proof.
  unfold Js.slice0. rewrite length_firstn.
  destruct (Z.ltb_spec e 0); lia.
Qed.

Lemma random_insert_perm {A} (draws : nat -> bool) (x : A) l : forall k,
  Permutation (x :: l) (fst (random_insert draws k x l)).
Proof.
  induction l as [|y t IH]; intros k; simpl.
  - apply Permutation_refl.
  - destruct (draws k); simpl; [apply Permutation_refl|].
    specialize (IH (S k)).
    destruct (random_insert draws (S k) x t) as [t' k']; simpl in *.
    eapply perm_trans; [apply perm_swap|]. now apply perm_skip.
Qed.

Lemma random_sort_perm {A} (draws : nat -> bool) (l : list A) :
  Permutation l (random_sort draws l).
Proof.
  unfold random_sort. generalize 0%nat.
  induction l as [|x t IH]; intros k; simpl; [constructor|].
  specialize (IH k).
  destruct (random_sort_from draws k t) as [t' k']; simpl in *.
  eapply perm_trans; [apply perm_skip, IH|apply random_insert_perm].
Qed.

Section Quotes.

Variable shuffle : list string -> list string.
Hypothesis shuffle_perm : Permutation quotes (shuffle quotes).

Lemma shuffle_length : List.length (shuffle quotes) = 10%nat.
Proof. rewrite <- (Permutation_length shuffle_perm). reflexivity. Qed.

Lemma quotes_handler_In parsed q :
  In q (quotes_handler shuffle parsed) -> In q quotes.
Proof.
  unfold quotes_handler, Js.slice0. intros H.
  apply in_firstn_in in H.
  eapply Permutation_in; [apply Permutation_sym, shuffle_perm|exact H].
Qed.

Lemma quotes_handler_NoDup parsed : NoDup (quotes_handler shuffle parsed).
Proof.
  unfold quotes_handler, Js.slice0.
  apply NoDup_firstn_of.
  eapply Permutation_NoDup; [apply shuffle_perm|apply quotes_NoDup].
Qed.

Lemma quotes_handler_length parsed :
  Z.of_nat (List.length (quotes_handler shuffle parsed)) =
  let count := Js.num_or parsed 1 in
  if count <? 0 then Z.max (10 + count) 0 else Z.min count 5.
Proof.
  unfold quotes_handler. rewrite slice0_length, shuffle_length.
  cbv zeta. set (count := Js.num_or parsed 1).
  destruct (Z.ltb_spec count 0); destruct (Z.ltb_spec (Z.min count 5) 0); lia.
Qed.

End Quotes.

(** ** Objects as counters *)

Lemma get_set {V} (o : Js.object V) k v k' :
  Js.get (Js.set o k v) k' = if String.eqb k k' then Some v else Js.get o k'.
Proof.
  induction o as [|[k0 v0] t IH]; simpl.
  - destruct (String.eqb_spec k k'); reflexivity.
  - destruct (String.eqb_spec k0 k) as [->|Hne]; simpl.
    + destruct (String.eqb_spec k k'); reflexivity.
    + rewrite IH. destruct (String.eqb_spec k0 k') as [->|Hne'].
      * destruct (String.eqb_spec k k'); [congruence|reflexivity].
      * reflexivity.
Qed.

Lemma get_None_keys {V} (o : Js.object V) k :
  Js.get o k = None -> ~ In k (map fst o).
Proof.
  induction o as [|[k0 v0] t IH]; simpl; [tauto|].
  destruct (String.eqb_spec k0 k); [discriminate|].
  intros H [Heq|Hin]; [congruence|exact (IH H Hin)].
Qed.

Lemma set_keys {V} (o : Js.object V) k v :
  map fst (Js.set o k v) =
  match Js.get o k with
  | Some _ => map fst o
  | None => (map fst o ++ [k])%list
  end.
Proof.
  induction o as [|[k0 v0] t IH]; simpl; [reflexivity|].
  destruct (String.eqb_spec k0 k); simpl; [reflexivity|].
  rewrite IH. destruct (Js.get t k); reflexivity.
Qed.

Lemma set_keys_NoDup {V} (o : Js.object V) k v :
  NoDup (map fst o) -> NoDup (map fst (Js.set o k v)).
Proof.
  intros H. rewrite set_keys.
  destruct (Js.get o k) eqn:E; [exact H|].
  apply NoDup_app; [exact H|repeat constructor; simpl; tauto|].
  intros x Hx [<-|[]]. exact (get_None_keys _ _ E Hx).
Qed.

Lemma In_get {V} (o : Js.object V) k v :
  NoDup (map fst o) -> In (k, v) o -> Js.get o k = Some v.
Proof.
  induction o as [|[k0 v0] t IH]; simpl; [tauto|].
  intros Hnd [Heq|Hin].
  - injection Heq as -> ->. now rewrite String.eqb_refl.
  - inversion Hnd as [|? ? Hk Ht]; subst.
    destruct (String.eqb_spec k0 k) as [->|_].
    + exfalso. apply Hk. apply (in_map fst) in Hin. exact Hin.
    + auto.
Qed.

Lemma entries_In {V} (o : Js.object V) x : In x (Js.entries o) -> In x o.
Proof.
  unfold Js.entries, Js.sort. intros H.
  apply in_app_or in H as [H|H].
  - apply (Permutation_in x (Permutation_sym (stable_sort_perm _ _))) in H.
    apply filter_In in H. tauto.
  - apply filter_In in H. tauto.
Qed.

(** ** The summary of the repository list *)

Lemma fold_sum_shift {A} (f : A -> Z) (l : list A) (a : Z) :
  fold_left (fun sum x => sum + f x) l a =
  a + fold_left (fun sum x => sum + f x) l 0.
Proof.
  revert a. induction l as [|x t IH]; intros a; simpl; [lia|].
  rewrite (IH (a + f x)), (IH (f x)). lia.
Qed.

Lemma totalStars_insert l1 r l2 :
  totalStars (l1 ++ r :: l2) = totalStars (l1 ++ l2) + Repo.stargazers_count r.
Proof.
  unfold totalStars. rewrite !fold_left_app. simpl.
  rewrite (fold_sum_shift _ l2 (_ + _)), (fold_sum_shift _ l2 (fold_left _ l1 0)).
  lia.
Qed.

Lemma totalForks_insert l1 r l2 :
  totalForks (l1 ++ r :: l2) = totalForks (l1 ++ l2) + Repo.forks_count r.
Proof.
  unfold totalForks. rewrite !fold_left_app. simpl.
  rewrite (fold_sum_shift _ l2 (_ + _)), (fold_sum_shift _ l2 (fold_left _ l1 0)).
  lia.
Qed.

Lemma languages_skip_null l1 r l2 :
  Repo.language r = None -> languages (l1 ++ r :: l2) = languages (l1 ++ l2).
Proof.
  intros H. unfold languages. rewrite !fold_left_app. simpl.
  unfold count_language at 2. now rewrite H.
Qed.

Lemma repos_in_snoc l seen r :
  repos_in l (seen ++ [r]) =
  repos_in l seen +
  match Repo.language r with
  | Some l' => if String.eqb l' l then 1 else 0
  | None => 0
  end.
Proof.
  unfold repos_in. rewrite filter_app, length_app. simpl.
  destruct (Repo.language r) as [l'|]; simpl; [|lia].
  destruct (String.eqb l' l); simpl; lia.
Qed.

Lemma repos_in_nonneg l seen : 0 <= repos_in l seen.
Proof. unfold repos_in. lia. Qed.

Lemma count_language_counts seen o r :
  counts seen o -> counts (seen ++ [r]) (count_language o r).
Proof.
  intros [Hnd Hget]. unfold count_language.
  destruct (Repo.language r) as [l'|] eqn:El.
  - destruct l' as [|c l'']; simpl.
    + split; [exact Hnd|]. intros l. rewrite Hget, repos_in_snoc, El.
      destruct (String.eqb_spec "" l) as [<-|Hne].
      * simpl. now rewrite !orb_true_r.
      * now rewrite Z.add_0_r.
    + split; [now apply set_keys_NoDup|].
      intros l. rewrite get_set, repos_in_snoc, El.
      pose proof (repos_in_nonneg l seen) as Hpos.
      destruct (String.eqb_spec (String c l'') l) as [<-|Hne].
      * rewrite Hget. simpl.
        destruct (Z.eqb_spec (repos_in (String c l'') seen) 0) as [->|Hnz];
          simpl; [reflexivity|].
        destruct (Z.eqb_spec (repos_in (String c l'') seen + 1) 0); [lia|].
        simpl. destruct (repos_in (String c l'') seen); [lia|reflexivity|lia].
      * rewrite Hget, Z.add_0_r. reflexivity.
  - split; [exact Hnd|]. intros l.
    now rewrite Hget, repos_in_snoc, El, Z.add_0_r.
Qed.

Lemma languages_counts data : counts data (languages data).
Proof.
  unfold languages.
  assert (G : forall rest seen o, counts seen o ->
              counts (seen ++ rest) (fold_left count_language rest o)).
  { induction rest as [|r t IH]; intros seen o H; simpl.
    - now rewrite app_nil_r.
    - replace (seen ++ r :: t)%list with ((seen ++ [r]) ++ t)%list
        by now rewrite <- app_assoc.
      apply IH, count_language_counts, H. }
  apply (G data [] []). split; [constructor|].
  intros l. simpl. reflexivity.
Qed.

Lemma top_languages_In data entry :
  In entry (top_languages data) ->
  Js.get (languages data) (Lang.name entry) = Some (Lang.count entry).
Proof.
  unfold top_languages, Js.slice0. rewrite in_map_iff.
  intros ([k v] & <- & H). simpl.
  apply in_firstn_in in H.
  apply (Permutation_in _ (Permutation_sym (stable_sort_perm _ _))) in H.
  apply entries_In in H.
  apply In_get; [apply languages_counts|exact H].
Qed.

(** ** The visitor counter *)

Lemma geo_lookup_loopback ip e s :
  not_loopback ip = false ->
  geo_lookup ip e s = (inl (Unknown, Unknown), s).
Proof.
  intros H. unfold geo_lookup, try_catch. rewrite H. reflexivity.
Qed.

Lemma geo_lookup_unsuccessful ip e s :
  not_loopback ip = true ->
  geo_unsuccessful e (tick s) ip = true ->
  exists s1,
    geo_lookup ip e s = (inl (Unknown, Unknown), s1) /\
    same_store s s1 /\ tick s1 = S (tick s).
Proof.
  intros Hip Hgeo. unfold geo_unsuccessful in Hgeo.
  unfold geo_lookup, try_catch, bind, axios_get, console_log, ret.
  rewrite Hip.
  destruct (ip_api e (tick s) _) as [[data|]|]; simpl.
  - destruct (Geo.status data) as [st|]; simpl.
    + destruct (String.eqb st "success"); [discriminate|].
      eexists; split; [reflexivity|]. now repeat split.
    + eexists; split; [reflexivity|]. now repeat split.
  - eexists; split; [reflexivity|]. now repeat split.
  - eexists; split; [reflexivity|]. now repeat split.
Qed.

Lemma geo_lookup_total ip e s :
  exists place s1,
    geo_lookup ip e s = (inl place, s1) /\ same_store s s1.
Proof.
  unfold geo_lookup, try_catch, bind, axios_get, console_log, ret.
  destruct (not_loopback ip).
  - destruct (ip_api e (tick s) _) as [[data|]|]; simpl.
    + destruct (Geo.status data) as [st|]; simpl.
      * destruct (String.eqb st "success");
          do 2 eexists; (split; [reflexivity|now repeat split]).
      * do 2 eexists; (split; [reflexivity|now repeat split]).
    + do 2 eexists; (split; [reflexivity|now repeat split]).
    + do 2 eexists; (split; [reflexivity|now repeat split]).
  - do 2 eexists; (split; [reflexivity|now repeat split]).
Qed.

(** Case analysis on the next answer of the database. *)
Ltac case_db_error :=
  match goal with
  | |- context [db_error ?e ?n] => destruct (db_error e n) eqn:?; simpl
  end.

Lemma visitors_handler_spec : counter_spec visitors_handler.
Proof.
  intros req e s r s'.
  unfold serve, visitors_handler, try_catch, bind.
  destruct (geo_lookup_total (client_ip req) e s)
    as ([country city] & s1 & -> & Hv & _ & _).
  unfold db_run_insert, db_query, Date_now, ret, grew, reports.
  destruct (db_error e (tick s1)); simpl.
  { intros H; injection H as <- <-. simpl. left. split; [reflexivity|now left]. }
  repeat case_db_error;
    intros H; injection H as <- <-; simpl; rewrite Hv;
    try (left; split; [reflexivity|right; eexists; reflexivity]).
  right. split; [reflexivity|]. split; [eexists; reflexivity|now repeat split].
Qed.

Lemma variant_visitors_handler_spec : counter_spec Variant.visitors_handler.
Proof.
  intros req e s r s'.
  unfold serve, Variant.visitors_handler, bind, db_run_insert, db_query, ret.
  unfold grew, reports.
  destruct (db_error e (tick s)); simpl.
  { intros H; injection H as <- <-. simpl. left. split; [reflexivity|now left]. }
  repeat case_db_error;
    intros H; injection H as <- <-; simpl;
    try (left; split; [reflexivity|right; eexists; reflexivity]).
  right. split; [reflexivity|]. split; [eexists; reflexivity|reflexivity].
Qed.

Section Counter.

Variable h : Req.t -> M response.
Hypothesis h_spec : counter_spec h.

Lemma counter_step req e s r s' :
  serve (h req) e s = (r, s') ->
  let n := Sql.count_all (visitors s) in
  let n' := Sql.count_all (visitors s') in
  n + successes [r] <= n' <= n + 1 /\
  (status r = 200 -> total_views r = Some n').
Proof.
  intros H. apply h_spec in H.
  unfold successes, succeeded, grew, reports in *. simpl.
  destruct H as [[-> [Hs|[row Hs]]]|(Hr & [row Hs] & Hrep)];
    rewrite Hs, ?count_all_app; simpl.
  - split; [lia|discriminate].
  - split; [lia|discriminate].
  - rewrite Hr. simpl. split; [lia|]. intros _.
    unfold total_views. rewrite Hs, count_all_app in Hrep.
    destruct (json r); try contradiction; [|now rewrite Hrep].
    destruct Hrep as [-> _]. reflexivity.
Qed.

(** The total reported by a successful call lies between the number
    of successes so far and the number of calls so far, both counted
    on top of the rows the table had at the start. *)
Lemma serve_all_views : forall reqs e s n r,
  nth_error (fst (serve_all h reqs e s)) n = Some r ->
  status r = 200 ->
  exists t,
    total_views r = Some t /\
    Sql.count_all (visitors s)
      + successes (firstn (S n) (fst (serve_all h reqs e s))) <= t
      <= Sql.count_all (visitors s) + Z.of_nat (S n).
Proof.
  induction reqs as [|req rest IH]; intros e s n r Hn Hr.
  - destruct n; discriminate.
  - simpl in Hn |- *.
    destruct (serve (h req) e s) as [r1 s1] eqn:E1.
    destruct (serve_all h rest e s1) as [rs s2] eqn:E2.
    pose proof (counter_step _ _ _ _ _ E1) as [Hb Ht]. cbv zeta in Hb, Ht.
    destruct n as [|n]; simpl in Hn |- *.
    + injection Hn as ->. exists (Sql.count_all (visitors s1)).
      split; [auto|]. lia.
    + specialize (IH e s1 n r). rewrite E2 in IH. simpl in IH.
      destruct (IH Hn Hr) as (t & Htv & Hlo & Hhi).
      exists t. split; [exact Htv|].
      unfold successes in *. simpl in Hb |- *.
      destruct (succeeded r1); simpl in *; lia.
Qed.

End Counter.

Lemma filter_all {A} (f : A -> bool) (l : list A) :
  forallb f l = true -> filter f l = l.
Proof.
  induction l as [|x t IH]; simpl; [reflexivity|].
  destruct (f x); simpl; [|discriminate]. intros H. now rewrite IH.
Qed.

Lemma firstn_nth_length {A} (l : list A) (n : nat) (x : A) :
  nth_error l n = Some x -> List.length (firstn (S n) l) = S n.
Proof.
  intros H. rewrite length_firstn.
  assert (n < List.length l)%nat by (apply nth_error_Some; congruence).
  lia.
Qed.

(** ** The cache of the GitHub endpoints *)

Ltac unfold_handlers :=
  unfold serve, handler, stats_handler, repos_handler, activity_handler,
    try_catch, bind, fresh, Promise_all2, axios_get, get_cache, put_cache,
    Date_now, ask, ret, throw.

(** Case analysis on the next answer of GitHub. *)
Ltac case_upstream :=
  match goal with
  | |- context [github_user ?e ?n] =>
      destruct (github_user e n) eqn:?; simpl
  | |- context [github_repos ?e ?n ?u] =>
      destruct (github_repos e n u) eqn:?; simpl
  | |- context [github_events ?e ?n] =>
      destruct (github_events e n) eqn:?; simpl
  end.

Lemma serves_from_cache_true k e s :
  serves_from_cache k e s = true ->
  warm k (cache s) = true /\
  (now e (tick s) - Cache.lastUpdated (cache s) <? CACHE_DURATION) = true.
Proof. unfold serves_from_cache. apply andb_prop. Qed.

Lemma stats_hit e s p :
  Cache.followers (cache s) = Some p ->
  (now e (tick s) - Cache.lastUpdated (cache s) <? CACHE_DURATION) = true ->
  stats_handler e s = (inl (ok (StatsBody (as_cached p None))), step s).
Proof.
  intros Hp Hf. unfold_handlers. rewrite Hp. simpl. rewrite Hf. reflexivity.
Qed.

Lemma repos_hit e s p :
  Cache.repos (cache s) = Some p ->
  (now e (tick s) - Cache.lastUpdated (cache s) <? CACHE_DURATION) = true ->
  repos_handler e s = (inl (ok (ReposBody p true)), step s).
Proof.
  intros Hp Hf. unfold_handlers. rewrite Hp. simpl. rewrite Hf. reflexivity.
Qed.

Lemma activity_hit e s p :
  Cache.activity (cache s) = Some p ->
  (now e (tick s) - Cache.lastUpdated (cache s) <? CACHE_DURATION) = true ->
  activity_handler e s = (inl (ok (ActivityBody p true)), step s).
Proof.
  intros Hp Hf. unfold_handlers. rewrite Hp. simpl. rewrite Hf. reflexivity.
Qed.

Lemma handler_hit k e s :
  serves_from_cache k e s = true ->
  exists r, handler k e s = (inl r, step s) /\ cached_response k (cache s) r.
Proof.
  intros H. apply serves_from_cache_true in H as [Hw Hf].
  destruct k; simpl in Hw |- *.
  - destruct (Cache.followers (cache s)) as [p|] eqn:E; [|discriminate].
    eexists. split; [apply (stats_hit _ _ _ E Hf)|].
    split; [reflexivity|]. now exists p.
  - destruct (Cache.repos (cache s)) as [p|] eqn:E; [|discriminate].
    eexists. split; [apply (repos_hit _ _ _ E Hf)|].
    split; [reflexivity|]. now exists p.
  - destruct (Cache.activity (cache s)) as [p|] eqn:E; [|discriminate].
    eexists. split; [apply (activity_hit _ _ _ E Hf)|].
    split; [reflexivity|]. now exists p.
Qed.

Lemma stats_fetch e s u rs :
  serves_from_cache KStats e s = false ->
  github_user e (fetch_tick KStats s) = Some u ->
  github_repos e (S (fetch_tick KStats s))
    (users_url ++ "/repos?per_page=100") = Some rs ->
  exists s',
    stats_handler e s = (inl (ok (StatsBody (stats_of u rs))), s') /\
    cache s' =
      Cache.mk (Some (stats_of u rs)) (Cache.repos (cache s))
        (Cache.activity (cache s)) (now e (S (S (fetch_tick KStats s)))) /\
    tick s' = S (S (S (fetch_tick KStats s))) /\
    requests s' = (requests s ++ stats_requests e)%list.
Proof.
  unfold serves_from_cache, fetch_tick. simpl. intros Hs Hu Hr.
  unfold_handlers.
  destruct (Cache.followers (cache s)) as [p|]; simpl in *.
  - rewrite Hs. simpl. rewrite Hu. simpl. rewrite Hr. simpl.
    eexists. split; [reflexivity|]. simpl.
    rewrite <- app_assoc. now repeat split.
  - rewrite Hu. simpl. rewrite Hr. simpl.
    eexists. split; [reflexivity|]. simpl.
    rewrite <- app_assoc. now repeat split.
Qed.

Lemma stats_miss_requests e s :
  serves_from_cache KStats e s = false ->
  requests (snd (serve stats_handler e s)) =
  (requests s ++ stats_requests e)%list.
Proof.
  unfold serves_from_cache. simpl. intros Hs.
  unfold_handlers.
  destruct (Cache.followers (cache s)) as [p|] eqn:E; simpl in *.
  - rewrite Hs. simpl.
    repeat case_upstream; rewrite ?E; simpl; now rewrite <- app_assoc.
  - repeat case_upstream; rewrite ?E; simpl; now rewrite <- app_assoc.
Qed.

Lemma repos_fetch e s rs :
  serves_from_cache KRepos e s = false ->
  github_repos e (fetch_tick KRepos s)
    (users_url ++ "/repos?sort=updated&per_page=10") = Some rs ->
  exists s',
    repos_handler e s = (inl (ok (ReposBody (map project_repo rs) false)), s') /\
    cache s' =
      Cache.mk (Cache.followers (cache s)) (Some (map project_repo rs))
        (Cache.activity (cache s)) (now e (S (fetch_tick KRepos s))) /\
    tick s' = S (S (fetch_tick KRepos s)) /\
    requests s' = (requests s ++ [repos_request e])%list.
Proof.
  unfold serves_from_cache, fetch_tick. simpl. intros Hs Hr.
  unfold_handlers.
  destruct (Cache.repos (cache s)) as [p|]; simpl in *.
  - rewrite Hs. simpl. rewrite Hr. simpl.
    eexists. split; [reflexivity|]. now repeat split.
  - rewrite Hr. simpl.
    eexists. split; [reflexivity|]. now repeat split.
Qed.

Lemma mapM_push_activity events e s :
  forallb has_commits events = true ->
  exists acts, mapM push_activity events e s = (inl acts, s).
Proof.
  induction events as [|ev t IH]; simpl; intros H.
  - now exists [].
  - apply andb_prop in H as [Hev Ht]. destruct (IH Ht) as [acts Hacts].
    unfold bind, push_activity, has_commits in *.
    destruct (Event.commits ev); [|discriminate].
    unfold ret at 1. rewrite Hacts. eexists. reflexivity.
Qed.

Lemma push_activity_state ev e s : snd (push_activity ev e s) = s.
Proof. unfold push_activity. destruct (Event.commits ev); reflexivity. Qed.

Lemma mapM_push_activity_state events e s :
  snd (mapM push_activity events e s) = s.
Proof.
  induction events as [|ev t IH]; simpl; [reflexivity|].
  unfold bind.
  pose proof (push_activity_state ev e s) as Hev.
  destruct (push_activity ev e s) as [[a|err] s1]; simpl in Hev; subst s1;
    [|reflexivity].
  destruct (mapM push_activity t e s) as [[acts|err] s1]; simpl in IH; subst s1;
    reflexivity.
Qed.

Lemma activity_fetch e s events :
  serves_from_cache KActivity e s = false ->
  github_events e (fetch_tick KActivity s) = Some events ->
  forallb has_commits (pushes events) = true ->
  exists acts s',
    activity_handler e s = (inl (ok (ActivityBody acts false)), s') /\
    cache s' =
      Cache.mk (Cache.followers (cache s)) (Cache.repos (cache s))
        (Some acts) (now e (S (fetch_tick KActivity s))) /\
    tick s' = S (S (fetch_tick KActivity s)) /\
    requests s' = (requests s ++ [activity_request e])%list.
Proof.
  unfold serves_from_cache, fetch_tick. simpl. intros Hs Hev Hc.
  unfold_handlers.
  destruct (Cache.activity (cache s)) as [p|]; simpl in *.
  - rewrite Hs. simpl. rewrite Hev. fold (pushes events).
    edestruct (mapM_push_activity (pushes events) e) as [acts ->]; [exact Hc|].
    simpl. do 2 eexists. split; [reflexivity|]. now repeat split.
  - rewrite Hev. fold (pushes events).
    edestruct (mapM_push_activity (pushes events) e) as [acts ->]; [exact Hc|].
    simpl. do 2 eexists. split; [reflexivity|]. now repeat split.
Qed.

Lemma warm_slot k c : warm k c = true <-> slot k c <> None.
Proof.
  destruct k; simpl;
    [destruct (Cache.followers c)|destruct (Cache.repos c)
    |destruct (Cache.activity c)]; simpl; split; congruence.
Qed.

(** A successful fetch: the slot of the endpoint is filled, the other
    two are kept, and [lastUpdated] is the clock read last. *)
Lemma handler_fetch k e s :
  serves_from_cache k e s = false ->
  upstream_ok k e (fetch_tick k s) = true ->
  exists r s',
    handler k e s = (inl r, s') /\
    status r = 200 /\
    warm k (cache s') = true /\
    (forall k', k' <> k -> slot k' (cache s') = slot k' (cache s)) /\
    Cache.lastUpdated (cache s') = now e (pred (tick s')) /\
    (tick s < tick s')%nat.
Proof.
  intros Hs Hup. destruct k; simpl in Hup.
  - destruct (github_user e _) as [u|] eqn:Eu; [|discriminate].
    destruct (github_repos e _ _) as [rs|] eqn:Er; [|discriminate].
    destruct (stats_fetch e s u rs Hs Eu Er) as (s' & Hrun & Hc & Ht & _).
    exists (ok (StatsBody (stats_of u rs))), s'. simpl.
    rewrite Hrun, Hc, Ht. simpl.
    repeat split; try reflexivity.
    + intros [] Hk; try reflexivity. congruence.
    + unfold fetch_tick. destruct (warm KStats (cache s)); lia.
  - destruct (github_repos e _ _) as [rs|] eqn:Er; [|discriminate].
    destruct (repos_fetch e s rs Hs Er) as (s' & Hrun & Hc & Ht & _).
    exists (ok (ReposBody (map project_repo rs) false)), s'. simpl.
    rewrite Hrun, Hc, Ht. simpl.
    repeat split; try reflexivity.
    + intros [] Hk; try reflexivity. congruence.
    + unfold fetch_tick. destruct (warm KRepos (cache s)); lia.
  - destruct (github_events e _) as [events|] eqn:Ee; [|discriminate].
    destruct (activity_fetch e s events Hs Ee Hup)
      as (acts & s' & Hrun & Hc & Ht & _).
    exists (ok (ActivityBody acts false)), s'. simpl.
    rewrite Hrun, Hc, Ht. simpl.
    repeat split; try reflexivity.
    + intros [] Hk; try reflexivity. congruence.
    + unfold fetch_tick. destruct (warm KActivity (cache s)); lia.
Qed.

Lemma mapM_push_activity_throws events e s :
  forallb has_commits events = false ->
  exists err, mapM push_activity events e s = (inr err, s).
Proof.
  induction events as [|ev t IH]; simpl; [discriminate|].
  unfold bind, push_activity at 1, has_commits at 1.
  destruct (Event.commits ev); simpl.
  - intros H. destruct (IH H) as [err Herr].
    unfold ret at 1. rewrite Herr. now exists err.
  - intros _. eexists. reflexivity.
Qed.

Lemma handler_failure k e s :
  serves_from_cache k e s = false ->
  upstream_ok k e (fetch_tick k s) = false ->
  exists s',
    serve (handler k) e s = (failure_response k (cache s), s') /\
    cache s' = cache s.
Proof.
  unfold serves_from_cache, fetch_tick, upstream_ok.
  destruct k; simpl; intros Hs Hup; unfold_handlers.
  - destruct (Cache.followers (cache s)) as [p|] eqn:E; simpl in *.
    + rewrite Hs. simpl.
      destruct (github_user e (S (tick s))); simpl;
        destruct (github_repos e (S (S (tick s))) _); simpl;
        try discriminate; rewrite E; eexists; split; reflexivity.
    + destruct (github_user e (tick s)); simpl;
        destruct (github_repos e (S (tick s)) _); simpl;
        try discriminate; rewrite E; eexists; split; reflexivity.
  - destruct (Cache.repos (cache s)) as [p|] eqn:E; simpl in *.
    + rewrite Hs. simpl.
      destruct (github_repos e (S (tick s)) _); simpl;
        try discriminate; rewrite E; eexists; split; reflexivity.
    + destruct (github_repos e (tick s) _); simpl;
        try discriminate; rewrite E; eexists; split; reflexivity.
  - destruct (Cache.activity (cache s)) as [p|] eqn:E; simpl in *.
    + rewrite Hs. simpl.
      destruct (github_events e (S (tick s))) as [events|]; simpl.
      * fold (pushes events).
        edestruct (mapM_push_activity_throws (pushes events) e) as [err ->];
          [exact Hup|].
        eexists; split; reflexivity.
      * eexists; split; reflexivity.
    + destruct (github_events e (tick s)) as [events|]; simpl.
      * fold (pushes events).
        edestruct (mapM_push_activity_throws (pushes events) e) as [err ->];
          [exact Hup|].
        eexists; split; reflexivity.
      * eexists; split; reflexivity.
Qed.

Lemma visitors_handler_effects req e s :
  let s' := snd (serve (visitors_handler req) e s) in
  cache s' = cache s /\
  requests s' =
    (requests s ++
     if not_loopback (client_ip req)
     then [lookup_request (client_ip req)] else [])%list.
Proof.
  unfold serve, visitors_handler, try_catch, bind, geo_lookup, try_catch,
    bind, axios_get, console_log, lookup_request.
  destruct (not_loopback (client_ip req)).
  - destruct (ip_api e (tick s) _) as [[data|]|]; simpl;
      [destruct (Geo.status data) as [st|]; simpl;
       [destruct (String.eqb st "success"); simpl|]| |];
      unfold db_run_insert, db_query, Date_now, ret; simpl;
      repeat case_db_error; split; reflexivity.
  - unfold db_run_insert, db_query, Date_now, ret; simpl.
    repeat case_db_error; rewrite app_nil_r; split; reflexivity.
Qed.

(** ** The visit among other requests *)

Lemma geo_lookup_run ip e s :
  exists s1,
    geo_lookup ip e s = (inl (located e (tick s) ip), s1) /\
    same_store s s1 /\
    tick s1 = (if not_loopback ip then S (tick s) else tick s).
Proof.
  unfold geo_lookup, located, try_catch, bind, axios_get, console_log, ret.
  destruct (not_loopback ip).
  - destruct (ip_api e (tick s) _) as [[data|]|]; simpl;
      [destruct (Geo.status data) as [st|]; simpl;
       [destruct (String.eqb st "success")|]| |];
      eexists; (split; [reflexivity|now repeat split]).
  - eexists; (split; [reflexivity|now repeat split]).
Qed.

Lemma renumber_length seq rows :
  List.length (renumber seq rows) = List.length rows.
Proof.
  revert seq. induction rows as [|r t IH]; intros seq; simpl; [reflexivity|].
  now rewrite IH.
Qed.

(** With no other request and the order of [Sql.top_countries], the
    handler among others is [visitors_handler]. *)
Lemma visitors_handler_among_quiet req e s :
  visitors_handler_among quiet req e s = visitors_handler req e s.
Proof.
  unfold visitors_handler_among, visitors_handler, try_catch, bind.
  destruct (geo_lookup (client_ip req) e s) as [[[country city]|err] s1];
    [|reflexivity].
  unfold db_run_insert_among, db_query_among, landed, quiet. simpl.
  unfold db_run_insert, db_query, top_countries_by, Sql.top_countries. simpl.
  destruct s1 as [c1 v1 q1 t1 rq1 co1]. simpl.
  rewrite !app_nil_r, !Z.add_0_r.
  destruct (db_error e t1); [reflexivity|]. simpl.
  rewrite !app_nil_r, !Z.add_0_r.
  repeat (case_db_error; rewrite ?app_nil_r, ?Z.add_0_r); reflexivity.
Qed.

(** The run of a visit, statement by statement: [A0] to [A3] are the
    rows of other requests that land before the [INSERT] and before
    each of the three counts. *)
Lemma visitors_handler_among_run o req e s :
  let n := insert_tick req s in
  exists A0 A1 A2 A3 row,
    List.length A0 = List.length (arrivals o n) /\
    List.length A1 = List.length (arrivals o (S n)) /\
    List.length A2 = List.length (arrivals o (S (S n))) /\
    List.length A3 = List.length (arrivals o (S (S (S n)))) /\
    Visitor.ip row = client_ip req /\
    Visitor.user_agent row = Js.or_else (Req.user_agent req) "unknown" /\
    Visitor.path row = Js.or_else (Req.query_path req) "/" /\
    (Visitor.country row, Visitor.city row) =
      located e (tick s) (client_ip req) /\
    let T0 := (visitors s ++ A0)%list in
    let T1 := ((T0 ++ [row]) ++ A1)%list in
    let T2 := (T1 ++ A2)%list in
    let T3 := (T2 ++ A3)%list in
    fst (serve (visitors_handler_among o req) e s) =
      (if db_error e n
          || db_error e (S n) || db_error e (S (S n))
          || db_error e (S (S (S n)))
       then status_500 "Database error"
       else ok (VisitorsBody (Sql.count_all T1) (Sql.count_distinct_ip T2)
                  (top_countries_by (order_by_count o) T3)
                  (Visitor.country row) (Visitor.city row)
                  (now e (S (S (S (S n))))))) /\
    visitors (snd (serve (visitors_handler_among o req) e s)) =
      (if db_error e n then T0 else T3).
Proof.
  unfold serve, visitors_handler_among, try_catch, bind, insert_tick.
  destruct (geo_lookup_run (client_ip req) e s)
    as (s1 & -> & (Hv & Hq & _) & Ht).
  destruct (located e (tick s) (client_ip req)) as [country city].
  destruct s1 as [c1 v1 q1 t1 rq1 co1]. simpl in Hv, Hq, Ht. subst v1 q1 t1.
  set (n := if not_loopback (client_ip req) then S (tick s) else tick s).
  unfold db_run_insert_among, db_query_among, landed, db_run_insert,
    db_query, Date_now, ret.
  cbn [tick visitors visitors_seq cache requests console step inserted
       Visitor.id].
  destruct (db_error e n) eqn:E0.
  - exists (renumber (visitors_seq s) (arrivals o n)),
      (renumber 0 (arrivals o (S n))), (renumber 0 (arrivals o (S (S n)))),
      (renumber 0 (arrivals o (S (S (S n))))),
      (Visitor.mk 0 (client_ip req)
         (Js.or_else (Req.user_agent req) "unknown")
         (Js.or_else (Req.query_path req) "/") country city 0).
    do 4 (split; [apply renumber_length|]).
    do 4 (split; [reflexivity|]).
    cbn. split; reflexivity.
  - cbn [tick visitors visitors_seq cache requests console step inserted
         Visitor.id fst snd].
    do 4 eexists.
    exists (Visitor.mk
              (visitors_seq s + Z.of_nat (List.length (arrivals o n)) + 1)
              (client_ip req)
              (Js.or_else (Req.user_agent req) "unknown")
              (Js.or_else (Req.query_path req) "/")
              country city (now e n)).
    do 4 (split; [eapply renumber_length|]).
    do 4 (split; [reflexivity|]).
    cbv zeta.
    destruct (db_error e (S n)); simpl;
      destruct (db_error e (S (S n))); simpl;
      destruct (db_error e (S (S (S n)))); simpl; split; reflexivity.
Qed.

(** * The claims *)

(** C1. [/api/github/stats]: once a fetch has succeeded and stored its
    payload, a later request for which [now - lastUpdated < 300000]
    gets the same payload with [cached] set to [true] and sends
    nothing upstream; a request for which [300000] ms or more have
    elapsed sends the two upstream requests again. *)
Theorem stats_cache_freshness e s u rs :
  serves_from_cache KStats e s = false ->
  github_user e (fetch_tick KStats s) = Some u ->
  github_repos e (S (fetch_tick KStats s))
    (users_url ++ "/repos?per_page=100") = Some rs ->
  let data := stats_of u rs in
  let s1 := snd (serve stats_handler e s) in
  fst (serve stats_handler e s) = ok (StatsBody data) /\
  Cache.followers (cache s1) = Some data /\
  forall e2 s2,
    Cache.followers (cache s2) = Some data ->
    let elapsed := now e2 (tick s2) - Cache.lastUpdated (cache s2) in
    (elapsed < 300000 ->
     serve stats_handler e2 s2 =
       (ok (StatsBody
              (Stats.mk (Stats.followers data) (Stats.following data)
                 (Stats.publicRepos data) (Stats.totalStars data)
                 (Stats.totalForks data) (Stats.languages data) true None)),
        step s2)) /\
    (300000 <= elapsed ->
     requests (snd (serve stats_handler e2 s2)) =
       (requests s2 ++ stats_requests e2)%list).
Proof.
  intros Hs Hu Hr data s1.
  destruct (stats_fetch e s u rs Hs Hu Hr) as (s' & Hrun & Hc & _).
  subst s1. unfold serve at 1 2. rewrite Hrun. simpl.
  split; [reflexivity|]. split; [now rewrite Hc|].
  intros e2 s2 Hdata. cbv zeta. split; intros Hel.
  - unfold serve. rewrite (stats_hit e2 s2 data Hdata); [reflexivity|].
    apply Z.ltb_lt. exact Hel.
  - apply stats_miss_requests. unfold serves_from_cache. simpl.
    rewrite Hdata. simpl. apply Z.ltb_ge. exact Hel.
Qed.

Lemma stats_cache_freshness_witness :
  let data := stats_of (User.mk 10 2 3) [repo_c; repo_plain] in
  let s1 := snd (serve stats_handler env_online state_init) in
  Cache.followers (cache s1) = Some data /\
  serve stats_handler env_online s1 =
    (ok (StatsBody (as_cached data None)), step s1).
Proof.
  destruct (stats_cache_freshness env_online state_init (User.mk 10 2 3)
              [repo_c; repo_plain] eq_refl eq_refl eq_refl)
    as (_ & Hstored & Hlater).
  split; [exact Hstored|].
  destruct (Hlater env_online _ Hstored) as [Hfresh _].
  apply Hfresh. reflexivity.
Defined.

(** C2. When the upstream call of a handler fails, [/api/github/stats]
    and [/api/github/repos] answer with the stored payload marked
    [cached: true] if there is one, and with the status 500 or the
    empty list if there is none; [/api/github/activity] answers with
    the empty list and [cached: false] whether or not a payload is
    stored.  The cache is left as it was. *)
Theorem upstream_failure_responses k e s :
  serves_from_cache k e s = false ->
  upstream_ok k e (fetch_tick k s) = false ->
  let r := fst (serve (handler k) e s) in
  let c := cache s in
  cache (snd (serve (handler k) e s)) = c /\
  match k with
  | KStats =>
      (forall p, Cache.followers c = Some p ->
         r = ok (StatsBody (as_cached p (Some "Using cached data")))) /\
      (Cache.followers c = None -> r = status_500 "GitHub API error")
  | KRepos =>
      (forall p, Cache.repos c = Some p -> r = ok (ReposBody p true)) /\
      (Cache.repos c = None -> r = ok (ReposBody [] false))
  | KActivity => r = ok (ActivityBody [] false)
  end.
Proof.
  intros Hs Hup r c. subst r c.
  destruct (handler_failure k e s Hs Hup) as (s' & -> & Hc). simpl.
  split; [exact Hc|].
  destruct k; simpl.
  - split; [intros p ->; reflexivity|intros ->; reflexivity].
  - split; [intros p ->; reflexivity|intros ->; reflexivity].
  - reflexivity.
Qed.

Lemma upstream_failure_responses_witness :
  warm KActivity (cache state_activity_cached) = true /\
  fst (serve activity_handler env_offline state_activity_cached) =
    ok (ActivityBody [] false).
Proof.
  split; [reflexivity|].
  apply (upstream_failure_responses KActivity env_offline
           state_activity_cached); reflexivity.
Defined.

(** C3, as the code has it.  Starting from an empty table, with either
    revision of the handler: a successful call reports a total that is
    at least the number of successful calls so far and at most the
    number of calls so far; when it and all calls before it succeeded,
    the [N]-th call reports [N]. *)
Theorem total_views_counts_calls h e s reqs n r :
  h = visitors_handler \/ h = Variant.visitors_handler ->
  visitors s = [] ->
  nth_error (fst (serve_all h reqs e s)) n = Some r ->
  status r = 200 ->
  exists t,
    total_views r = Some t /\
    successes (firstn (S n) (fst (serve_all h reqs e s))) <= t
      <= Z.of_nat (S n) /\
    (forallb succeeded (firstn (S n) (fst (serve_all h reqs e s))) = true ->
     t = Z.of_nat (S n)).
Proof.
  intros Hh Hempty Hn Hr.
  assert (Hspec : counter_spec h).
  { destruct Hh as [->| ->];
      [apply visitors_handler_spec|apply variant_visitors_handler_spec]. }
  destruct (serve_all_views h Hspec reqs e s n r Hn Hr) as (t & Ht & Hb).
  rewrite Hempty in Hb. change (Sql.count_all []) with 0 in Hb.
  exists t. split; [exact Ht|]. split; [lia|].
  intros Hall. unfold successes in Hb.
  rewrite (filter_all _ _ Hall), (firstn_nth_length _ _ _ Hn) in Hb. lia.
Qed.

Lemma total_views_counts_calls_witness :
  let rs := fst (serve_all visitors_handler [req_local; req_local]
                   env_offline state_init) in
  exists r t,
    nth_error rs 1 = Some r /\ total_views r = Some t /\ t = 2.
Proof.
  destruct (total_views_counts_calls visitors_handler env_offline state_init
              [req_local; req_local] 1
              (ok (VisitorsBody 2 1 [] Unknown Unknown 9000))
              (or_introl eq_refl) eq_refl eq_refl eq_refl)
    as (t & Ht & _ & Hall).
  exists (ok (VisitorsBody 2 1 [] Unknown Unknown 9000)), t.
  split; [reflexivity|]. split; [exact Ht|].
  apply Hall. reflexivity.
Defined.

(** C3 as stated fails: the first call inserts its row and then fails
    to read the total, so the first successful call reports 2. *)
Lemma nth_successful_call_counterexample :
  ~ (forall e reqs n r,
       nth_error
         (filter succeeded (fst (serve_all visitors_handler reqs e state_init)))
         n = Some r ->
       total_views r = Some (Z.of_nat (S n))).
Proof.
  intros H.
  specialize (H env_read_failure [req_local; req_local] 0%nat
                (ok (VisitorsBody 2 1 [] Unknown Unknown 8000)) eq_refl).
  discriminate H.
Qed.

(** C4, as the code has it.  Whatever order the shuffle produces:
    every string of the response is one of [quotes] and none occurs
    twice; for a count of at least 1 the response has exactly
    [min(count, 5)] strings, and for a count of 0 or one that is not a
    number it has one. *)
Theorem quotes_response shuffle parsed :
  Permutation quotes (shuffle quotes) ->
  let resp := quotes_handler shuffle parsed in
  (forall q, In q resp -> In q quotes) /\
  NoDup resp /\
  (forall count, parsed = Some count -> 1 <= count ->
     Z.of_nat (List.length resp) = Z.min count 5) /\
  (parsed = Some 0 \/ parsed = None -> List.length resp = 1%nat).
Proof.
  intros Hperm resp. subst resp.
  split; [intros q; apply quotes_handler_In, Hperm|].
  split; [apply quotes_handler_NoDup, Hperm|].
  pose proof (quotes_handler_length shuffle Hperm parsed) as Hlen.
  cbv zeta in Hlen. split.
  - intros count -> Hc. rewrite Hlen.
    replace (Js.num_or (Some count) 1) with count
      by (destruct count; [lia|reflexivity|reflexivity]).
    destruct (Z.ltb_spec count 0); lia.
  - intros [-> | ->]; simpl in Hlen; lia.
Qed.

Lemma quotes_response_witness :
  let resp := quotes_handler engine_shuffle (Some 3) in
  (forall q, In q resp -> In q quotes) /\
  NoDup resp /\
  (forall count, Some 3 = Some count -> 1 <= count ->
     Z.of_nat (List.length resp) = Z.min count 5) /\
  (Some 3 = Some 0 \/ Some 3 = None -> List.length resp = 1%nat).
Proof.
  apply (quotes_response engine_shuffle (Some 3)).
  apply random_sort_perm.
Defined.

(** C4 as stated fails at [count = 0]: the response has one string,
    which is not between 1 and [min(0, 5)]. *)
Lemma quotes_count_zero_counterexample :
  let count := 0 in
  let resp := quotes_handler engine_shuffle (Some count) in
  ~ (1 <= Z.of_nat (List.length resp) <= Z.min count 5 /\
     (forall q, In q resp -> In q quotes) /\
     (count <= Z.of_nat (List.length quotes) -> NoDup resp)).
Proof.
  intros count resp [[_ Hmax] _].
  assert (Hlen : Z.of_nat (List.length resp) = 1) by reflexivity.
  rewrite Hlen in Hmax. subst count. simpl in Hmax. lia.
Qed.

(** A negative count is not clamped either: [slice(0, -1)] drops the
    last string only. *)
Lemma quotes_negative_count :
  List.length (quotes_handler engine_shuffle (Some (-1))) = 9%nat.
Proof. reflexivity. Qed.

(** C5. The [countries] list of a response of [/api/visitors] has no
    entry for ["Unknown"] and is in descending order of [count]. *)
Theorem countries_known_and_sorted req e s r s' t u cs c ci tm :
  serve (visitors_handler req) e s = (r, s') ->
  json r = VisitorsBody t u cs c ci tm ->
  (forall g, In g cs -> CountryCount.country g <> "Unknown") /\
  sorted_desc CountryCount.count cs.
Proof.
  intros Hrun Hjson.
  destruct (visitors_handler_spec _ _ _ _ _ Hrun)
    as [[-> _]|(_ & _ & Hrep)]; [discriminate|].
  unfold reports in Hrep. rewrite Hjson in Hrep.
  destruct Hrep as (_ & _ & ->).
  split; [intros g; apply top_countries_known|apply top_countries_sorted].
Qed.

Lemma countries_known_and_sorted_witness :
  let cs := [CountryCount.mk "Peru" 2; CountryCount.mk "France" 1] in
  (forall g, In g cs -> CountryCount.country g <> "Unknown") /\
  sorted_desc CountryCount.count cs.
Proof.
  apply (countries_known_and_sorted req_local env_offline state_visited
           (fst (serve (visitors_handler req_local) env_offline state_visited))
           (snd (serve (visitors_handler req_local) env_offline state_visited))
           5 4 _ Unknown Unknown 4000); reflexivity.
Defined.

(** C8, as the code has it.  The two counts are separate statements:
    [uniqueVisitors] is at most [totalViews] plus the number of rows
    that other requests insert between the two reads, and at most
    [totalViews] when none lands there. *)
Theorem unique_visitors_le_total_views o req e s r s' t u cs c ci tm :
  serve (visitors_handler_among o req) e s = (r, s') ->
  json r = VisitorsBody t u cs c ci tm ->
  u <= t + landing o req s 2 /\
  (arrivals o (insert_tick req s + 2) = [] -> u <= t).
Proof.
  intros Hrun Hjson.
  destruct (visitors_handler_among_run o req e s)
    as (A0 & A1 & A2 & A3 & row & _ & _ & L2 & _ & _ & _ & _ & _ & Hr & _).
  cbv zeta in Hr. rewrite Hrun in Hr. simpl in Hr.
  assert (Hbound : u <= t + landing o req s 2).
  { destruct (_ || _) in Hr; rewrite Hr in Hjson; simpl in Hjson;
      [discriminate|].
    injection Hjson as <- <- _ _ _ _.
    pose proof (count_distinct_ip_le_count_all
                  ((((visitors s ++ A0) ++ [row]) ++ A1) ++ A2)) as Hle.
    unfold Sql.count_all in *. rewrite length_app in Hle.
    unfold landing. replace (insert_tick req s + 2)%nat
      with (S (S (insert_tick req s))) by lia.
    rewrite <- L2. lia. }
  split; [exact Hbound|].
  intros Hnone. unfold landing in Hbound. rewrite Hnone in Hbound.
  simpl in Hbound. lia.
Qed.

Lemma unique_visitors_le_total_views_witness :
  2 <= 1 + landing outside_between_reads req_local state_init 2 /\
  (arrivals outside_between_reads (insert_tick req_local state_init + 2) = [] ->
   2 <= 1).
Proof.
  apply (unique_visitors_le_total_views outside_between_reads req_local
           env_offline state_init
           (fst (serve (visitors_handler_among outside_between_reads req_local)
                   env_offline state_init))
           (snd (serve (visitors_handler_among outside_between_reads req_local)
                   env_offline state_init))
           1 2 [CountryCount.mk "Peru" 1] Unknown Unknown 4000);
    reflexivity.
Defined.

(** C8 as stated fails: a visit from a new address that lands between
    the two reads is counted by the second and not by the first; on an
    empty table the response has [totalViews] 1 and [uniqueVisitors]
    2. *)
Lemma unique_exceeds_total_counterexample :
  ~ (forall o req e s r s' t u cs c ci tm,
       serve (visitors_handler_among o req) e s = (r, s') ->
       json r = VisitorsBody t u cs c ci tm ->
       u <= t).
Proof.
  intros H.
  assert (Hle : 2 <= 1).
  { apply (H outside_between_reads req_local env_offline state_init
             (fst (serve (visitors_handler_among outside_between_reads
                            req_local) env_offline state_init))
             (snd (serve (visitors_handler_among outside_between_reads
                            req_local) env_offline state_init))
             1 2 [CountryCount.mk "Peru" 1] Unknown Unknown 4000);
      reflexivity. }
  lia.
Qed.

(** C6. The three slots share [lastUpdated]: a successful fetch by any
    of the three handlers sets it to the clock it reads, keeps the two
    other slots, and a request for either of them that arrives within
    [CACHE_DURATION] of that reading is served from its slot, however
    old that slot is. *)
Theorem fetch_refreshes_all_slots k e s :
  serves_from_cache k e s = false ->
  upstream_ok k e (fetch_tick k s) = true ->
  let s1 := snd (serve (handler k) e s) in
  Cache.lastUpdated (cache s1) = now e (pred (tick s1)) /\
  forall k', k' <> k ->
    slot k' (cache s1) = slot k' (cache s) /\
    forall e2 s2,
      cache s2 = cache s1 ->
      warm k' (cache s1) = true ->
      now e2 (tick s2) - now e (pred (tick s1)) < CACHE_DURATION ->
      exists r,
        serve (handler k') e2 s2 = (r, step s2) /\
        cached_response k' (cache s2) r.
Proof.
  intros Hs Hup s1. subst s1.
  destruct (handler_fetch k e s Hs Hup)
    as (r & s' & Hrun & _ & _ & Hslots & Hlast & _).
  assert (Hserve : serve (handler k) e s = (r, s'))
    by (unfold serve; now rewrite Hrun).
  rewrite Hserve. simpl.
  split; [exact Hlast|].
  intros k' Hk. split; [exact (Hslots k' Hk)|].
  intros e2 s2 Hc Hw Hnow.
  destruct (handler_hit k' e2 s2) as (r2 & Hrun2 & Hresp).
  - unfold serves_from_cache. rewrite Hc, Hw, Hlast. simpl.
    apply Z.ltb_lt. exact Hnow.
  - exists r2. unfold serve. rewrite Hrun2. split; [reflexivity|exact Hresp].
Qed.

Lemma fetch_refreshes_all_slots_witness :
  serves_from_cache KStats env_online state_stats_cached = false /\
  let s1 := snd (serve repos_handler env_online state_stats_cached) in
  Cache.lastUpdated (cache s1) = 401000 /\
  exists r,
    serve stats_handler env_online s1 = (r, step s1) /\
    cached_response KStats (cache s1) r.
Proof.
  split; [reflexivity|].
  destruct (fetch_refreshes_all_slots KRepos env_online state_stats_cached
              eq_refl eq_refl) as [Hlast Hother].
  split; [exact Hlast|].
  destruct (Hother KStats) as [_ Hserved]; [discriminate|].
  apply (Hserved env_online _ eq_refl eq_refl). reflexivity.
Defined.

Lemma not_loopback_false ip :
  not_loopback ip = false <-> ip = Some "::1" \/ ip = Some "127.0.0.1".
Proof.
  destruct ip as [a|]; simpl.
  - destruct (String.eqb_spec a "::1") as [->|H1]; simpl.
    + split; auto.
    + destruct (String.eqb_spec a "127.0.0.1") as [->|H2]; simpl.
      * split; auto.
      * split; [discriminate|]. intros [H|H]; congruence.
  - split; [discriminate|]. intros [H|H]; discriminate.
Qed.

(** C7, as the code has it.  The lookup is skipped for the two
    addresses [::1] and [127.0.0.1]: no request is sent.  For every
    other address, when the lookup is rejected or its reply is not a
    success, the row is inserted with country and city ["Unknown"]
    and, the database working, the response is the success shape with
    both set to ["Unknown"]. *)
Theorem geo_lookup_best_effort req e s :
  let ip := client_ip req in
  let s' := snd (serve (visitors_handler req) e s) in
  (ip = Some "::1" \/ ip = Some "127.0.0.1" -> requests s' = requests s) /\
  (ip <> Some "::1" -> ip <> Some "127.0.0.1" ->
   geo_unsuccessful e (tick s) ip = true ->
   (forall n, (tick s < n)%nat -> db_error e n = false) ->
   exists t u cs time row,
     fst (serve (visitors_handler req) e s) =
       ok (VisitorsBody t u cs Unknown Unknown time) /\
     visitors s' = (visitors s ++ [row])%list /\
     Visitor.ip row = ip /\
     Visitor.country row = Unknown /\
     Visitor.city row = Unknown).
Proof.
  intros ip s'. subst ip s'.
  pose proof (visitors_handler_effects req e s) as [_ Hreq].
  cbv zeta in Hreq. split.
  - intros Hip. apply not_loopback_false in Hip.
    rewrite Hreq, Hip. apply app_nil_r.
  - intros H1 H2.
    assert (Hip : not_loopback (client_ip req) = true).
    { destruct (not_loopback (client_ip req)) eqn:E; [reflexivity|].
      apply not_loopback_false in E. tauto. }
    intros Hgeo Hdb. unfold serve, visitors_handler, try_catch, bind.
    destruct (geo_lookup_unsuccessful _ e s Hip Hgeo)
      as (s1 & -> & (Hv & _ & _) & Ht).
    unfold db_run_insert, db_query, Date_now, ret.
    repeat match goal with
           | |- context [db_error e ?n] =>
               rewrite (Hdb n) by (simpl; rewrite ?Ht; lia); simpl
           end.
    do 5 eexists. split; [reflexivity|]. simpl. rewrite Hv.
    repeat split; reflexivity.
Qed.

Lemma geo_lookup_best_effort_witness :
  requests (snd (serve (visitors_handler req_local) env_offline state_init))
    = requests state_init /\
  exists t u cs time row,
    fst (serve (visitors_handler req_remote) env_offline state_init) =
      ok (VisitorsBody t u cs Unknown Unknown time) /\
    visitors (snd (serve (visitors_handler req_remote) env_offline state_init))
      = (visitors state_init ++ [row])%list /\
    Visitor.ip row = client_ip req_remote /\
    Visitor.country row = Unknown /\
    Visitor.city row = Unknown.
Proof.
  split.
  - apply (proj1 (geo_lookup_best_effort req_local env_offline state_init)).
    right. reflexivity.
  - apply (proj2 (geo_lookup_best_effort req_remote env_offline state_init));
      try discriminate; reflexivity.
Defined.

(** C7 as stated fails: [::ffff:127.0.0.1], the address of a local
    client on a dual-stack socket, is a loopback address, and it is
    looked up. *)
Lemma loopback_lookup_counterexample :
  ~ (forall req e s a,
       client_ip req = Some a ->
       loopback_address a = true ->
       requests (snd (serve (visitors_handler req) e s)) = requests s).
Proof.
  intros H.
  specialize (H req_mapped env_offline state_init "::ffff:127.0.0.1"
                eq_refl eq_refl).
  vm_compute in H. discriminate H.
Qed.

(** C9. A request served from a fresh slot leaves the cache as it was:
    the three payloads and [lastUpdated] are the same after it, and
    nothing is sent upstream. *)
Theorem cache_hit_read_only k e s :
  serves_from_cache k e s = true ->
  let r := fst (serve (handler k) e s) in
  let s' := snd (serve (handler k) e s) in
  cached_response k (cache s) r /\
  cache s' = cache s /\
  requests s' = requests s.
Proof.
  intros H r s'. subst r s'.
  destruct (handler_hit k e s H) as (r & Hrun & Hresp).
  unfold serve. rewrite Hrun. simpl.
  split; [exact Hresp|split; reflexivity].
Qed.

Lemma cache_hit_read_only_witness :
  cache (snd (serve stats_handler env_online state_stats_fresh)) =
  cache state_stats_fresh.
Proof.
  apply (cache_hit_read_only KStats env_online state_stats_fresh).
  reflexivity.
Defined.

(** C10. In the statistics that [/api/github/stats] computes from a
    reply of GitHub, a repository without a language adds its stars
    and forks to the totals, and the language list is the one computed
    from the reply without it.  When no language is named like an
    inherited member of objects, every entry of the list is a
    non-empty language whose count is the number of repositories that
    carry it. *)
Theorem null_language_not_counted e s u l1 r l2 :
  serves_from_cache KStats e s = false ->
  github_user e (fetch_tick KStats s) = Some u ->
  github_repos e (S (fetch_tick KStats s))
    (users_url ++ "/repos?per_page=100") = Some (l1 ++ r :: l2)%list ->
  Repo.language r = None ->
  exists d,
    fst (serve stats_handler e s) = ok (StatsBody d) /\
    Stats.totalStars d =
      Stats.totalStars (stats_of u (l1 ++ l2)) + Repo.stargazers_count r /\
    Stats.totalForks d =
      Stats.totalForks (stats_of u (l1 ++ l2)) + Repo.forks_count r /\
    Stats.languages d = Stats.languages (stats_of u (l1 ++ l2)) /\
    (own_names (l1 ++ l2) = true ->
     forall entry, In entry (Stats.languages d) ->
       Lang.name entry <> "" /\
       0 < Lang.count entry /\
       Lang.count entry = repos_in (Lang.name entry) (l1 ++ l2)).
Proof.
  intros Hs Hu Hr Hnull.
  destruct (stats_fetch e s u _ Hs Hu Hr) as (s' & Hrun & _).
  exists (stats_of u (l1 ++ r :: l2)).
  unfold serve. rewrite Hrun. simpl.
  split; [reflexivity|].
  split; [apply totalStars_insert|].
  split; [apply totalForks_insert|].
  assert (Htop : top_languages (l1 ++ r :: l2) = top_languages (l1 ++ l2)).
  { unfold top_languages. now rewrite (languages_skip_null _ _ _ Hnull). }
  split; [exact Htop|].
  intros _ entry Hin. rewrite Htop in Hin.
  apply top_languages_In in Hin.
  destruct (languages_counts (l1 ++ l2)) as [_ Hget].
  rewrite Hget in Hin.
  pose proof (repos_in_nonneg (Lang.name entry) (l1 ++ l2)) as Hpos.
  destruct (Z.eqb_spec (repos_in (Lang.name entry) (l1 ++ l2)) 0) as [|Hnz];
    [discriminate|].
  destruct (String.eqb_spec (Lang.name entry) "") as [|Hne]; [discriminate|].
  simpl in Hin. injection Hin as Hin.
  split; [exact Hne|]. split; lia.
Qed.

Lemma null_language_not_counted_witness :
  exists d,
    fst (serve stats_handler env_online state_init) = ok (StatsBody d) /\
    Stats.totalStars d = 5 + 7 /\
    Stats.totalForks d = 1 + 2 /\
    Stats.languages d = [Lang.mk "C" 1].
Proof.
  destruct (null_language_not_counted env_online state_init (User.mk 10 2 3)
              [repo_c] repo_plain [] eq_refl eq_refl eq_refl eq_refl)
    as (d & Hr & Hstars & Hforks & Hlangs & _).
  exists d. split; [exact Hr|]. split; [exact Hstars|].
  split; [exact Hforks|exact Hlangs].
Defined.

(** * Further properties *)

(** ** What the handlers leave alone *)

(** X1. A visit never changes the GitHub cache, and it sends exactly
    one request, the lookup of the client address without any header,
    unless the address is [::1] or [127.0.0.1], when it sends none. *)
Theorem visit_sends_one_lookup req e s :
  let s' := snd (serve (visitors_handler req) e s) in
  cache s' = cache s /\
  requests s' =
    (requests s ++
     if not_loopback (client_ip req)
     then [{| url := "http://ip-api.com/json/" ++ interpolate (client_ip req);
              authorization := None |}]
     else [])%list.
Proof. exact (visitors_handler_effects req e s). Qed.

Lemma mapM_push_activity_run events e s :
  exists r, mapM push_activity events e s = (r, s).
Proof.
  exists (fst (mapM push_activity events e s)).
  rewrite <- (mapM_push_activity_state events e s) at 3.
  apply surjective_pairing.
Qed.

Lemma handler_effects k e s :
  let s' := snd (serve (handler k) e s) in
  visitors s' = visitors s /\
  visitors_seq s' = visitors_seq s /\
  requests s' =
    (requests s ++
     if serves_from_cache k e s then [] else requests_of k e)%list.
Proof.
  unfold serves_from_cache, requests_of, stats_requests, repos_request,
    activity_request.
  destruct k; simpl; unfold_handlers.
  - destruct (Cache.followers (cache s)) as [p|] eqn:E; simpl.
    + destruct (_ <? _); simpl.
      * rewrite app_nil_r. now repeat split.
      * repeat case_upstream; rewrite ?E; simpl;
          rewrite <- app_assoc; now repeat split.
    + repeat case_upstream; rewrite ?E; simpl;
        rewrite <- app_assoc; now repeat split.
  - destruct (Cache.repos (cache s)) as [p|] eqn:E; simpl.
    + destruct (_ <? _); simpl.
      * rewrite app_nil_r. now repeat split.
      * repeat case_upstream; rewrite ?E; simpl; now repeat split.
    + repeat case_upstream; rewrite ?E; simpl; now repeat split.
  - destruct (Cache.activity (cache s)) as [p|] eqn:E; simpl.
    + destruct (_ <? _); simpl.
      * rewrite app_nil_r. now repeat split.
      * case_upstream; [|now repeat split].
        match goal with
        | |- context [mapM push_activity ?l ?e ?st] =>
            destruct (mapM_push_activity_run l e st) as [[acts|err] ->]
        end; simpl; now repeat split.
    + case_upstream; [|now repeat split].
      match goal with
      | |- context [mapM push_activity ?l ?e ?st] =>
          destruct (mapM_push_activity_run l e st) as [[acts|err] ->]
      end; simpl; now repeat split.
Qed.

(** X2. A GitHub handler never touches the table of visits. Served
    from the cache it sends nothing; otherwise it sends exactly the
    requests of its endpoint, once each, whatever the answers are. *)
Theorem github_handler_effects k e s :
  let s' := snd (serve (handler k) e s) in
  visitors s' = visitors s /\
  visitors_seq s' = visitors_seq s /\
  requests s' =
    (requests s ++
     if serves_from_cache k e s then [] else requests_of k e)%list.
Proof. exact (handler_effects k e s). Qed.

(** ** How the cache evolves *)

Lemma slot_warm k c c' : slot k c' = slot k c -> warm k c' = warm k c.
Proof.
  destruct k; simpl;
    [destruct (Cache.followers c), (Cache.followers c')
    |destruct (Cache.repos c), (Cache.repos c')
    |destruct (Cache.activity c), (Cache.activity c')];
    simpl; congruence.
Qed.

(** X3. No handler empties a slot or writes the slot of another
    endpoint, and the cache changes only when a handler that was not
    served from it gets a usable answer: then [lastUpdated] becomes
    the clock it read last. In every other run the cache is exactly
    what it was. *)
Theorem cache_changes_only_by_fetch k e s :
  let s' := snd (serve (handler k) e s) in
  (forall k', k' <> k -> slot k' (cache s') = slot k' (cache s)) /\
  (forall k', warm k' (cache s) = true -> warm k' (cache s') = true) /\
  (cache s' = cache s \/
   serves_from_cache k e s = false /\
   upstream_ok k e (fetch_tick k s) = true /\
   warm k (cache s') = true /\
   Cache.lastUpdated (cache s') = now e (pred (tick s'))).
Proof.
  destruct (serves_from_cache k e s) eqn:Hs.
  - destruct (handler_hit k e s Hs) as (r & Hrun & _).
    unfold serve. rewrite Hrun. simpl. auto.
  - destruct (upstream_ok k e (fetch_tick k s)) eqn:Hup.
    + destruct (handler_fetch k e s Hs Hup)
        as (r & s' & Hrun & _ & Hw & Hslots & Hlast & _).
      unfold serve. rewrite Hrun. simpl.
      split; [exact Hslots|]. split; [|now right].
      intros k' Hk'. destruct k, k'; try exact Hw;
        (erewrite slot_warm; [exact Hk'|apply Hslots; discriminate]).
    + destruct (handler_failure k e s Hs Hup) as (s' & Hrun & Hc).
      rewrite Hrun. simpl. rewrite Hc. auto.
Qed.

(** X4. What a response of [/api/github/stats] tells: with
    [cached: false] its payload is the one just computed and now
    stored, and it has no [error] note; with [cached: true] the
    payload is the stored one and the cache was not changed; the only
    other answer is the status 500, given when nothing is stored. *)
Theorem stats_response_shapes e s :
  let r := fst (serve stats_handler e s) in
  let s' := snd (serve stats_handler e s) in
  match json r with
  | StatsBody d =>
      status r = 200 /\
      if Stats.cached d
      then cache s' = cache s /\
           exists p, Cache.followers (cache s) = Some p /\
                     (d = as_cached p None \/
                      d = as_cached p (Some "Using cached data"))
      else Cache.followers (cache s') = Some d /\
           Stats.error d = None /\
           serves_from_cache KStats e s = false
  | ErrorBody msg =>
      r = status_500 "GitHub API error" /\
      Cache.followers (cache s) = None /\
      cache s' = cache s
  | _ => False
  end.
Proof.
  destruct (serves_from_cache KStats e s) eqn:Hs.
  - destruct (handler_hit KStats e s Hs) as (r & Hrun & Hst & p & Hp & Hj).
    simpl in Hrun. unfold serve. rewrite Hrun. simpl. rewrite Hj. simpl.
    split; [exact Hst|]. split; [reflexivity|]. exists p. auto.
  - destruct (upstream_ok KStats e (fetch_tick KStats s)) eqn:Hup.
    + simpl in Hup.
      destruct (github_user e _) as [u|] eqn:Eu; [|discriminate].
      destruct (github_repos e _ _) as [rs|] eqn:Er; [|discriminate].
      destruct (stats_fetch e s u rs Hs Eu Er) as (s' & Hrun & Hc & _).
      unfold serve. rewrite Hrun. simpl. rewrite Hc. simpl. auto.
    + destruct (handler_failure KStats e s Hs Hup) as (s' & Hrun & Hc).
      simpl in Hrun. rewrite Hrun. simpl.
      destruct (Cache.followers (cache s)) as [p|] eqn:Hp; simpl.
      * split; [reflexivity|]. split; [exact Hc|]. exists p. auto.
      * auto.
Qed.

(** X5. [/api/github/repos] and [/api/github/activity] never answer
    with an error status. A list marked [cached: true] is the stored
    one, unchanged; a list marked [cached: false] is either the one
    just stored or, after a failure, the empty list. *)
Theorem list_endpoints_never_fail e s :
  (let r := fst (serve repos_handler e s) in
   let s' := snd (serve repos_handler e s) in
   exists l c,
     r = ok (ReposBody l c) /\
     if c then Cache.repos (cache s) = Some l /\ cache s' = cache s
     else Cache.repos (cache s') = Some l \/
          l = [] /\ cache s' = cache s /\ Cache.repos (cache s) = None) /\
  (let r := fst (serve activity_handler e s) in
   let s' := snd (serve activity_handler e s) in
   exists l c,
     r = ok (ActivityBody l c) /\
     if c then Cache.activity (cache s) = Some l /\ cache s' = cache s
     else Cache.activity (cache s') = Some l \/
          l = [] /\ cache s' = cache s).
Proof.
  split.
  - destruct (serves_from_cache KRepos e s) eqn:Hs.
    + destruct (handler_hit KRepos e s Hs) as (r & Hrun & Hst & p & Hp & Hj).
      simpl in Hrun. unfold serve. rewrite Hrun. simpl.
      exists p, true. split; [|auto].
      destruct r as [st j]. simpl in *. now subst.
    + destruct (upstream_ok KRepos e (fetch_tick KRepos s)) eqn:Hup.
      * simpl in Hup.
        destruct (github_repos e _ _) as [rs|] eqn:Er; [|discriminate].
        destruct (repos_fetch e s rs Hs Er) as (s' & Hrun & Hc & _).
        unfold serve. rewrite Hrun. simpl.
        exists (map project_repo rs), false. rewrite Hc. simpl. auto.
      * destruct (handler_failure KRepos e s Hs Hup) as (s' & Hrun & Hc).
        simpl in Hrun. rewrite Hrun. simpl.
        destruct (Cache.repos (cache s)) as [p|] eqn:Hp; simpl.
        -- exists p, true. auto.
        -- exists [], false. auto.
  - destruct (serves_from_cache KActivity e s) eqn:Hs.
    + destruct (handler_hit KActivity e s Hs)
        as (r & Hrun & Hst & p & Hp & Hj).
      simpl in Hrun. unfold serve. rewrite Hrun. simpl.
      exists p, true. split; [|auto].
      destruct r as [st j]. simpl in *. now subst.
    + destruct (upstream_ok KActivity e (fetch_tick KActivity s)) eqn:Hup.
      * simpl in Hup.
        destruct (github_events e _) as [events|] eqn:Ee; [|discriminate].
        destruct (activity_fetch e s events Hs Ee Hup)
          as (acts & s' & Hrun & Hc & _).
        unfold serve. rewrite Hrun. simpl.
        exists acts, false. rewrite Hc. simpl. auto.
      * destruct (handler_failure KActivity e s Hs Hup) as (s' & Hrun & Hc).
        simpl in Hrun. rewrite Hrun. simpl.
        exists [], false. auto.
Qed.

(** ** The visit *)

(** X6. The failures of a visit. When the [INSERT] fails the answer is
    500 and the table is as before, and no count is read. When the
    [INSERT] works the row is in the table whatever follows: if one of
    the three reads fails the answer is 500 all the same and the row
    stays. The handler never answers ["Server error"]. *)
Theorem visit_failures req e s :
  let n := insert_tick req s in
  let r := fst (serve (visitors_handler req) e s) in
  let s' := snd (serve (visitors_handler req) e s) in
  r <> status_500 "Server error" /\
  if db_error e n
  then r = status_500 "Database error" /\
       visitors s' = visitors s /\ tick s' = S n
  else visitors s' = (visitors s ++ [visit_row req e s])%list /\
       (db_error e (S n) || db_error e (S (S n)) || db_error e (S (S (S n)))
          = true ->
        r = status_500 "Database error").
Proof.
  unfold serve, visitors_handler, try_catch, bind, visit_row, insert_tick.
  destruct (geo_lookup_run (client_ip req) e s)
    as (s1 & -> & (Hv & Hq & _) & Ht).
  destruct (located e (tick s) (client_ip req)) as [country city].
  destruct s1 as [c1 v1 q1 t1 rq1 co1]. simpl in Hv, Hq, Ht. subst v1 q1 t1.
  unfold db_run_insert, db_query, Date_now, ret. simpl.
  set (n := if not_loopback (client_ip req) then S (tick s) else tick s).
  destruct (db_error e n) eqn:E0; simpl.
  { split; [discriminate|]. now repeat split. }
  repeat case_db_error;
    (split; [discriminate|]); (split; [reflexivity|]);
    try reflexivity; discriminate.
Qed.

Lemma visitors_handler_success req e s :
  let n := insert_tick req s in
  (forall k, (k <= 3)%nat -> db_error e (n + k) = false) ->
  let row := visit_row req e s in
  let rows := (visitors s ++ [row])%list in
  fst (serve (visitors_handler req) e s) =
    ok (VisitorsBody (Sql.count_all (visitors s) + 1)
          (Sql.count_distinct_ip rows) (Sql.top_countries rows)
          (Visitor.country row) (Visitor.city row) (now e (n + 4))) /\
  visitors (snd (serve (visitors_handler req) e s)) = rows /\
  Visitor.ip row = client_ip req /\
  Visitor.user_agent row = Js.or_else (Req.user_agent req) "unknown" /\
  Visitor.path row = Js.or_else (Req.query_path req) "/".
Proof.
  intros n Hdb row rows. subst row rows n.
  revert Hdb.
  unfold serve, visitors_handler, try_catch, bind, visit_row, insert_tick.
  destruct (geo_lookup_run (client_ip req) e s)
    as (s1 & -> & (Hv & Hq & _) & Ht).
  destruct (located e (tick s) (client_ip req)) as [country city].
  destruct s1 as [c1 v1 q1 t1 rq1 co1]. simpl in Hv, Hq, Ht. subst v1 q1 t1.
  unfold db_run_insert, db_query, Date_now, ret. simpl.
  set (n := if not_loopback (client_ip req) then S (tick s) else tick s).
  intros Hdb.
  pose proof (Hdb 0%nat ltac:(lia)) as H0. rewrite Nat.add_0_r in H0.
  pose proof (Hdb 1%nat ltac:(lia)) as H1. rewrite Nat.add_1_r in H1.
  pose proof (Hdb 2%nat ltac:(lia)) as H2.
  replace (n + 2)%nat with (S (S n)) in H2 by lia.
  pose proof (Hdb 3%nat ltac:(lia)) as H3.
  replace (n + 3)%nat with (S (S (S n))) in H3 by lia.
  rewrite H0. simpl. rewrite H1. simpl. rewrite H2. simpl. rewrite H3. simpl.
  rewrite count_all_app.
  replace (n + 4)%nat with (S (S (S (S n)))) by lia.
  now repeat split.
Qed.

(** X7. A visit answered by the working database, whatever other
    requests do meanwhile: [totalViews] is the number of rows before,
    plus one, plus the rows that other requests inserted before the
    total was read; [recentVisit] repeats the country and city of the
    row of this visit, which is in the table and holds the address of
    the client, the user agent (default ["unknown"]) and the path
    (default ["/"]). *)
Theorem visit_success o req e s :
  let n := insert_tick req s in
  (forall k, (k <= 3)%nat -> db_error e (n + k) = false) ->
  exists row t u cs tm,
    fst (serve (visitors_handler_among o req) e s) =
      ok (VisitorsBody t u cs (Visitor.country row) (Visitor.city row) tm) /\
    t = Sql.count_all (visitors s) + 1
        + landing o req s 0 + landing o req s 1 /\
    In row (visitors (snd (serve (visitors_handler_among o req) e s))) /\
    Visitor.ip row = client_ip req /\
    Visitor.user_agent row = Js.or_else (Req.user_agent req) "unknown" /\
    Visitor.path row = Js.or_else (Req.query_path req) "/" /\
    (Visitor.country row, Visitor.city row) =
      located e (tick s) (client_ip req).
Proof.
  intros n Hdb.
  destruct (visitors_handler_among_run o req e s)
    as (A0 & A1 & A2 & A3 & row & L0 & L1 & _ & _ & Hip & Hua & Hpath
        & Hloc & Hr & Hrows).
  cbv zeta in Hr, Hrows. fold n in Hr, Hrows, L0, L1.
  pose proof (Hdb 0%nat ltac:(lia)) as H0. rewrite Nat.add_0_r in H0.
  pose proof (Hdb 1%nat ltac:(lia)) as H1. rewrite Nat.add_1_r in H1.
  pose proof (Hdb 2%nat ltac:(lia)) as H2.
  replace (n + 2)%nat with (S (S n)) in H2 by lia.
  pose proof (Hdb 3%nat ltac:(lia)) as H3.
  replace (n + 3)%nat with (S (S (S n))) in H3 by lia.
  rewrite H0, H1, H2, H3 in Hr. rewrite H0 in Hrows. simpl in Hr.
  exists row. do 4 eexists. split; [exact Hr|].
  split.
  - unfold Sql.count_all, landing. fold n.
    rewrite Nat.add_0_r, Nat.add_1_r, <- L0, <- L1.
    rewrite !length_app. simpl. lia.
  - split; [|auto].
    rewrite Hrows. do 3 (apply in_or_app; left).
    apply in_or_app. right. now left.
Qed.

Lemma visit_success_witness :
  exists row t u cs tm,
    fst (serve (visitors_handler_among outside_between_reads req_local)
           env_offline state_init) =
      ok (VisitorsBody t u cs (Visitor.country row) (Visitor.city row) tm) /\
    t = 1.
Proof.
  destruct (visit_success outside_between_reads req_local env_offline
              state_init (fun _ _ => eq_refl))
    as (row & t & u & cs & tm & Hr & Ht & _).
  exists row, t, u, cs, tm. split; [exact Hr|exact Ht].
Defined.

(** X8. When the lookup answers with [status] ["success"], the country
    and the city of the reply are what the row stores and what
    [recentVisit] repeats; a field the reply lacks is stored as
    [NULL]. *)
Theorem located_visit req e s data :
  not_loopback (client_ip req) = true ->
  ip_api e (tick s)
    ("http://ip-api.com/json/" ++ interpolate (client_ip req))
    = Some (Some data) ->
  Geo.status data = Some "success" ->
  (forall k, (k <= 3)%nat -> db_error e (S (tick s) + k) = false) ->
  exists t u cs time row,
    fst (serve (visitors_handler req) e s) =
      ok (VisitorsBody t u cs (Geo.country data) (Geo.city data) time) /\
    visitors (snd (serve (visitors_handler req) e s)) =
      (visitors s ++ [row])%list /\
    Visitor.country row = Geo.country data /\
    Visitor.city row = Geo.city data.
Proof.
  intros Hip Hreply Hst Hdb.
  destruct (visitors_handler_success req e s) as (Hr & Hrows & _).
  { unfold insert_tick. rewrite Hip. exact Hdb. }
  assert (Hloc : located e (tick s) (client_ip req) =
                 (Geo.country data, Geo.city data)).
  { unfold located. rewrite Hip, Hreply, Hst. reflexivity. }
  unfold visit_row in Hr, Hrows. rewrite Hloc in Hr, Hrows. simpl in Hr, Hrows.
  do 5 eexists. split; [exact Hr|]. split; [exact Hrows|]. split; reflexivity.
Qed.

Lemma located_visit_witness :
  exists t u cs time row,
    fst (serve (visitors_handler req_remote) env_located state_init) =
      ok (VisitorsBody t u cs (Some "Peru") (Some "Lima") time) /\
    visitors (snd (serve (visitors_handler req_remote) env_located state_init))
      = (visitors state_init ++ [row])%list /\
    Visitor.country row = Some "Peru" /\
    Visitor.city row = Some "Lima".
Proof.
  apply (located_visit req_remote env_located state_init geo_lima);
    reflexivity.
Defined.

Lemma split_head_spec c s :
  mentions c (Js.split_head c s) = false /\
  exists rest,
    s = (Js.split_head c s ++ rest)%string /\
    (rest = EmptyString /\ mentions c s = false \/
     exists rest', rest = String c rest').
Proof.
  induction s as [|a s IH]; simpl.
  - split; [reflexivity|]. exists EmptyString. auto.
  - destruct (Ascii.eqb_spec a c) as [->|Hne]; simpl.
    + split; [reflexivity|]. exists (String c s). split; [reflexivity|].
      right. now exists s.
    + destruct IH as (Hno & rest & Hs & Hrest).
      apply Ascii.eqb_neq in Hne. rewrite Hne. simpl.
      split; [exact Hno|]. exists rest. split; [now rewrite <- Hs|].
      destruct Hrest as [[-> Hm]|Hr]; [left; split; auto|right; exact Hr].
Qed.

(** X9. The address of the client. With an [x-forwarded-for] header
    whose text before the first comma is not empty, that text is the
    address and the socket address is not looked at; it has no comma
    and the header is this text alone or this text, a comma and more.
    With no header, or one that is empty or starts with a comma, the
    address is the one of the socket. *)
Theorem client_ip_cases req :
  match Req.x_forwarded_for req with
  | Some h =>
      let first := Js.split_head "," h in
      mentions "," first = false /\
      (exists rest,
         h = (first ++ rest)%string /\
         (rest = EmptyString \/ exists rest', rest = String "," rest')) /\
      (first <> EmptyString -> client_ip req = Some first) /\
      (first = EmptyString -> client_ip req = Req.remoteAddress req)
  | None => client_ip req = Req.remoteAddress req
  end.
Proof.
  unfold client_ip, Js.or_opt.
  destruct (Req.x_forwarded_for req) as [h|]; simpl; [|reflexivity].
  destruct (split_head_spec "," h) as (Hno & rest & Hh & Hrest).
  split; [exact Hno|]. split.
  - exists rest. split; [exact Hh|].
    destruct Hrest as [[-> _]|Hr]; [now left|now right].
  - destruct (Js.split_head "," h); simpl; split; congruence.
Qed.

(** ** The list of countries *)

Lemma bump_keys c groups :
  map CountryCount.country (Sql.bump c groups) =
  if in_dec string_dec c (map CountryCount.country groups)
  then map CountryCount.country groups
  else (map CountryCount.country groups ++ [c])%list.
Proof.
  induction groups as [|g t IH]; simpl; [reflexivity|].
  destruct (String.eqb_spec (CountryCount.country g) c) as [Heq|Hne]; simpl.
  - destruct (string_dec (CountryCount.country g) c); [|contradiction].
    now rewrite Heq.
  - rewrite IH.
    destruct (string_dec (CountryCount.country g) c); [contradiction|].
    destruct (in_dec string_dec c (map CountryCount.country t)); reflexivity.
Qed.

Lemma bump_In c groups g :
  NoDup (map CountryCount.country groups) ->
  In g (Sql.bump c groups) ->
  In g groups /\ CountryCount.country g <> c \/
  CountryCount.country g = c /\
  ((exists g0, In g0 groups /\ CountryCount.country g0 = c /\
               CountryCount.count g = CountryCount.count g0 + 1) \/
   ~ In c (map CountryCount.country groups) /\ CountryCount.count g = 1).
Proof.
  induction groups as [|h t IH]; simpl; intros Hnd.
  - intros [<-|[]]. right. split; [reflexivity|]. right. auto.
  - inversion Hnd as [|? ? Hh Ht]; subst.
    destruct (String.eqb_spec (CountryCount.country h) c) as [Heq|Hne].
    + intros [<-|Hin].
      * right. split; [reflexivity|]. left. exists h. simpl. auto.
      * left. split; [now right|]. intros Hg. apply Hh.
        rewrite Heq, <- Hg. now apply in_map.
    + intros [<-|Hin].
      * left. split; [now left|exact Hne].
      * destruct (IH Ht Hin)
          as [[Hi Hc]|[Hc [(g0 & Hg0 & Hk & Hn)|[Hno Hn]]]].
        -- left. split; [now right|exact Hc].
        -- right. split; [exact Hc|]. left. exists g0. auto.
        -- right. split; [exact Hc|]. right. split; [|exact Hn].
           intros [Hx|Hx]; [contradiction|exact (Hno Hx)].
Qed.

Lemma count_occ_snoc (l : list string) (c x : string) :
  count_occ string_dec (l ++ [c]) x =
  (count_occ string_dec l x + if string_dec c x then 1 else 0)%nat.
Proof.
  rewrite count_occ_app. simpl. destruct (string_dec c x); reflexivity.
Qed.

Lemma bump_tallied seen groups c :
  tallied seen groups -> tallied (seen ++ [c]) (Sql.bump c groups).
Proof.
  intros (Hnd & Hcov & Hcnt). unfold tallied. rewrite bump_keys.
  split; [|split].
  - destruct (in_dec string_dec c _) as [Hin|Hout]; [exact Hnd|].
    apply NoDup_app; [exact Hnd|repeat constructor; simpl; tauto|].
    intros x Hx [<-|[]]. exact (Hout Hx).
  - intros x Hx. apply in_app_or in Hx as [Hx|[<-|[]]].
    + destruct (in_dec string_dec c _); [auto|apply in_or_app; auto].
    + destruct (in_dec string_dec c _); [auto|apply in_or_app; simpl; auto].
  - intros g Hg. rewrite count_occ_snoc.
    destruct (bump_In c groups g Hnd Hg)
      as [[Hi Hc]|[Hc [(g0 & Hg0 & Hk & Hn)|[Hno Hn]]]].
    + destruct (string_dec c (CountryCount.country g)); [congruence|].
      rewrite Nat.add_0_r. auto.
    + destruct (string_dec c (CountryCount.country g)); [|congruence].
      destruct (Hcnt g0 Hg0) as [H0 Hpos]. rewrite Hc, <- Hk. lia.
    + destruct (string_dec c (CountryCount.country g)); [|congruence].
      assert (count_occ string_dec seen (CountryCount.country g) = 0%nat).
      { apply count_occ_not_In. intros Hs. apply Hno. rewrite <- Hc.
        now apply Hcov. }
      lia.
Qed.

Lemma group_fold_tallied cs : forall seen groups,
  tallied seen groups ->
  tallied (seen ++ cs)
    (fold_left (fun groups c => Sql.bump c groups) cs groups).
Proof.
  induction cs as [|c t IH]; intros seen groups H; simpl.
  - now rewrite app_nil_r.
  - replace (seen ++ c :: t)%list with ((seen ++ [c]) ++ t)%list
      by now rewrite <- app_assoc.
    apply IH, bump_tallied, H.
Qed.

Lemma group_by_country_tallied rows :
  tallied (Sql.non_null Visitor.country rows) (Sql.group_by_country rows).
Proof.
  apply (group_fold_tallied _ [] []).
  split; [constructor|]. split; intros ? [].
Qed.

Lemma known_count_occ rows c :
  c <> "Unknown" ->
  count_occ string_dec
    (Sql.non_null Visitor.country (filter Sql.known_country rows)) c =
  count_occ string_dec (Sql.non_null Visitor.country rows) c.
Proof.
  intros Hc. induction rows as [|r t IH]; [reflexivity|].
  change (filter Sql.known_country (r :: t))
    with (if Sql.known_country r then r :: filter Sql.known_country t
          else filter Sql.known_country t).
  unfold Sql.non_null in *.
  destruct (Sql.known_country r) eqn:K; cbn [flat_map];
    rewrite ?count_occ_app, IH; [reflexivity|].
  unfold Sql.known_country in K.
  destruct (Visitor.country r) as [c'|]; [|reflexivity].
  destruct (String.eqb c' "Unknown") eqn:Q; [|discriminate].
  apply String.eqb_eq in Q. subst c'.
  rewrite count_occ_cons_neq by congruence. reflexivity.
Qed.

Lemma top_countries_tally rows :
  let cs := Sql.top_countries rows in
  (List.length cs <= 10)%nat /\
  NoDup (map CountryCount.country cs) /\
  forall g, In g cs ->
    CountryCount.count g = visits_from (CountryCount.country g) rows /\
    1 <= CountryCount.count g <= Sql.count_all rows.
Proof.
  unfold Sql.top_countries.
  set (groups := Sql.group_by_country (filter Sql.known_country rows)).
  destruct (group_by_country_tallied (filter Sql.known_country rows))
    as (Hnd & _ & Hcnt). fold groups in Hnd, Hcnt.
  split; [apply firstn_le_length|]. split.
  - rewrite <- firstn_map. apply NoDup_firstn_of.
    eapply Permutation_NoDup; [|exact Hnd].
    apply Permutation_map, stable_sort_perm.
  - intros g Hg.
    assert (Hknown : CountryCount.country g <> "Unknown")
      by (eapply top_countries_known; exact Hg).
    apply in_firstn_in in Hg.
    apply (Permutation_in g (Permutation_sym (stable_sort_perm _ _))) in Hg.
    destruct (Hcnt g Hg) as [Heq Hpos].
    rewrite known_count_occ in Heq by exact Hknown.
    split; [exact Heq|]. split; [lia|].
    rewrite Heq. unfold Sql.count_all.
    pose proof (count_occ_bound string_dec (CountryCount.country g)
                  (Sql.non_null Visitor.country rows)).
    pose proof (non_null_length_le Visitor.country rows). lia.
Qed.




(** ** The payloads of the GitHub endpoints *)

Lemma filter_split_perm {A} (p : A -> bool) (l : list A) :
  Permutation (filter p l ++ filter (fun x => negb (p x)) l) l.
Proof.
  induction l as [|x t IH]; simpl; [constructor|].
  destruct (p x); simpl.
  - now apply perm_skip.
  - eapply perm_trans; [apply Permutation_sym, Permutation_middle|].
    now apply perm_skip.
Qed.

Lemma entries_perm {V} (o : Js.object V) : Permutation (Js.entries o) o.
Proof.
  unfold Js.entries, Js.sort.
  eapply perm_trans; [|apply (filter_split_perm Js.is_index_key)].
  apply Permutation_app_tail, Permutation_sym, stable_sort_perm.
Qed.

Lemma sorted_desc_map {A B} (f : A -> B) (key : B -> Z) (l : list A) :
  sorted_desc (fun x => key (f x)) l -> sorted_desc key (map f l).
Proof.
  unfold sorted_desc. induction 1 as [|x t Ht IH Hx]; simpl; constructor.
  - exact IH.
  - rewrite Forall_forall in *. intros y Hy.
    apply in_map_iff in Hy as (z & <- & Hz). auto.
Qed.

Lemma top_languages_bounds data :
  let ls := top_languages data in
  (List.length ls <= 5)%nat /\
  sorted_desc Lang.count ls /\
  NoDup (map Lang.name ls).
Proof.
  unfold top_languages, Js.slice0, Js.sort.
  change (5 <? 0) with false. cbv iota.
  set (sorted := stable_sort _ _).
  set (n := Z.to_nat _).
  assert (Hn : (n <= 5)%nat) by (subst n; lia).
  split; [|split].
  - rewrite length_map, length_firstn. lia.
  - apply (sorted_desc_map (fun e => Lang.mk (fst e) (snd e)) Lang.count).
    apply sorted_desc_firstn.
    apply (stable_sort_sorted (fun e : string * Z => snd e)).
  - rewrite map_map. simpl. rewrite <- firstn_map. apply NoDup_firstn_of.
    eapply Permutation_NoDup;
      [|exact (proj1 (languages_counts data))].
    apply Permutation_map, Permutation_sym.
    eapply perm_trans; [apply Permutation_sym, stable_sort_perm|].
    apply entries_perm.
Qed.

(** X11. The [languages] of the statistics fetched from a reply in
    which no language is named like an inherited member of objects
    ([constructor], [toString], ...): at most five entries, in
    descending order of [count], and no language twice. *)
Theorem top_languages_shape e s u data :
  serves_from_cache KStats e s = false ->
  github_user e (fetch_tick KStats s) = Some u ->
  github_repos e (S (fetch_tick KStats s))
    (users_url ++ "/repos?per_page=100") = Some data ->
  own_names data = true ->
  exists d,
    fst (serve stats_handler e s) = ok (StatsBody d) /\
    (List.length (Stats.languages d) <= 5)%nat /\
    sorted_desc Lang.count (Stats.languages d) /\
    NoDup (map Lang.name (Stats.languages d)).
Proof.
  intros Hs Hu Hr _.
  destruct (stats_fetch e s u data Hs Hu Hr) as (s' & Hrun & _).
  exists (stats_of u data). unfold serve. rewrite Hrun. simpl.
  split; [reflexivity|]. apply top_languages_bounds.
Qed.

Lemma top_languages_shape_witness :
  exists d,
    fst (serve stats_handler env_online state_init) = ok (StatsBody d) /\
    (List.length (Stats.languages d) <= 5)%nat /\
    sorted_desc Lang.count (Stats.languages d) /\
    NoDup (map Lang.name (Stats.languages d)).
Proof.
  apply (top_languages_shape env_online state_init (User.mk 10 2 3)
           [repo_c; repo_plain]); reflexivity.
Defined.

Lemma project_repo_idempotent r : project_repo (project_repo r) = project_repo r.
Proof.
  unfold project_repo. simpl. f_equal.
  destruct (Repo.description r) as [[|a d]|]; reflexivity.
Qed.

(** X12. A list of repositories fetched by [/api/github/repos] has one
    entry per repository of the reply, in its order. An entry repeats
    the fields of its repository, except that its description is
    ["No description provided"] when GitHub gave none or an empty one,
    and its topics are the empty list when GitHub gave none;
    projecting an entry again changes nothing. *)
Theorem repos_fetch_projection e s rs :
  serves_from_cache KRepos e s = false ->
  github_repos e (fetch_tick KRepos s)
    (users_url ++ "/repos?sort=updated&per_page=10") = Some rs ->
  exists l,
    fst (serve repos_handler e s) = ok (ReposBody l false) /\
    Forall2
      (fun r p =>
         Repo.description p =
           Some (match Repo.description r with
                 | Some (String a d) => String a d
                 | _ => "No description provided"
                 end) /\
         Repo.topics p =
           Some (match Repo.topics r with Some ts => ts | None => [] end) /\
         (Repo.id p, Repo.name p, Repo.html_url p, Repo.language p,
          Repo.homepage p) =
         (Repo.id r, Repo.name r, Repo.html_url r, Repo.language r,
          Repo.homepage r) /\
         (Repo.stargazers_count p, Repo.forks_count p, Repo.watchers_count p,
          Repo.size p, Repo.created_at p, Repo.updated_at p) =
         (Repo.stargazers_count r, Repo.forks_count r, Repo.watchers_count r,
          Repo.size r, Repo.created_at r, Repo.updated_at r) /\
         project_repo p = p)
      rs l.
Proof.
  intros Hs Hr.
  destruct (repos_fetch e s rs Hs Hr) as (s' & Hrun & _).
  exists (map project_repo rs). unfold serve. rewrite Hrun. simpl.
  split; [reflexivity|].
  clear. induction rs as [|r t IH]; simpl; constructor; [|exact IH].
  split; [|split; [reflexivity|split; [reflexivity|split; [reflexivity|]]]].
  - unfold project_repo. simpl.
    destruct (Repo.description r) as [[|a d]|]; reflexivity.
  - apply project_repo_idempotent.
Qed.

Lemma repos_fetch_projection_witness :
  exists l,
    fst (serve repos_handler env_online state_init) = ok (ReposBody l false) /\
    map Repo.description l =
      [Some "No description provided"; Some "Notes"].
Proof.
  destruct (repos_fetch_projection env_online state_init [repo_c; repo_plain]
              eq_refl eq_refl) as (l & Hr & Hall).
  exists l. split; [exact Hr|].
  inversion Hall as [|r1 p1 t1 l1 (Hd1 & _) Hall1]; subst.
  inversion Hall1 as [|r2 p2 t2 l2 (Hd2 & _) Hall2]; subst.
  inversion Hall2; subst. simpl. now rewrite Hd1, Hd2.
Defined.

(** The entry made from a push event with its commits. *)
Lemma mapM_push_activity_entries events e s acts s' :
  mapM push_activity events e s = (inl acts, s') ->
  Forall2 (fun event a =>
             exists commits,
               Event.commits event = Some commits /\
               a = Activity.mk (Js.split_head "T" (Event.created_at event))
                     (Z.of_nat (List.length commits))
                     (Event.repo_name event))
    events acts.
Proof.
  revert acts s s'. induction events as [|ev t IH]; simpl; intros acts s s' H.
  - injection H as <- _. constructor.
  - unfold bind in H. unfold push_activity at 1 in H.
    destruct (Event.commits ev) as [commits|] eqn:E; [|discriminate].
    unfold ret at 1 in H.
    destruct (mapM push_activity t e s) as [[acts'|err] s1] eqn:Et;
      [|discriminate].
    injection H as <- _. constructor; [now exists commits|].
    eapply IH, Et.
Qed.

(** X13. A successful fetch of the activity has one entry per push
    event of the feed, in the order of the feed: its [repo] is the
    name of the repository, its [count] the number of commits of the
    event, and its [date] the part of [created_at] before the first
    ["T"]. Events of other types are ignored, with or without commits. *)
Theorem activity_entries e s events :
  serves_from_cache KActivity e s = false ->
  github_events e (fetch_tick KActivity s) = Some events ->
  forallb has_commits (pushes events) = true ->
  exists acts,
    fst (serve activity_handler e s) = ok (ActivityBody acts false) /\
    Forall2 (fun event a =>
               Event.type event = "PushEvent" /\
               Activity.repo a = Event.repo_name event /\
               option_map (fun cs => Z.of_nat (List.length cs))
                 (Event.commits event) = Some (Activity.count a) /\
               Activity.date a = Js.split_head "T" (Event.created_at event) /\
               mentions "T" (Activity.date a) = false)
      (pushes events) acts.
Proof.
  intros Hs Hev Hc.
  destruct (mapM_push_activity (pushes events) e
              (step (sent (if warm KActivity (cache s) then step s else s)
                       (activity_request e))) Hc) as [acts Hacts].
  pose proof (mapM_push_activity_entries _ _ _ _ _ Hacts) as Hall.
  exists acts. split.
  - revert Hs Hev Hacts.
    unfold serves_from_cache, fetch_tick, activity_request. simpl.
    unfold_handlers. fold (pushes events).
    destruct (Cache.activity (cache s)) as [p|]; simpl; intros Hs Hev Hacts.
    + rewrite Hs. simpl. rewrite Hev. fold (pushes events).
      rewrite Hacts. reflexivity.
    + rewrite Hev. fold (pushes events). rewrite Hacts. reflexivity.
  - assert (Hpush : Forall (fun event => Event.type event = "PushEvent")
                      (pushes events)).
    { apply Forall_forall. intros ev Hin. unfold pushes in Hin.
      apply filter_In in Hin as [_ Ht]. now apply String.eqb_eq. }
    clear - Hall Hpush.
    induction Hall as [|ev a t ta (cs & Hcs & ->) _ IH]; constructor.
    + inversion Hpush; subst. rewrite Hcs. simpl.
      repeat split; try assumption.
      apply (split_head_spec "T").
    + inversion Hpush; subst. auto.
Qed.

Lemma activity_entries_witness :
  exists acts,
    fst (serve activity_handler env_online state_init) =
      ok (ActivityBody acts false) /\
    List.length acts = 1%nat.
Proof.
  destruct (activity_entries env_online state_init [push_event]
              eq_refl eq_refl eq_refl) as (acts & Hr & Hall).
  exists acts. split; [exact Hr|].
  symmetry. exact (Forall2_length Hall).
Defined.

(** X14. One push event that comes without [payload.commits] spoils
    the whole fetch: the answer is the empty list, nothing is stored,
    and [lastUpdated] stays. *)
Theorem activity_push_without_commits e s events event :
  serves_from_cache KActivity e s = false ->
  github_events e (fetch_tick KActivity s) = Some events ->
  In event events ->
  Event.type event = "PushEvent" ->
  Event.commits event = None ->
  fst (serve activity_handler e s) = ok (ActivityBody [] false) /\
  cache (snd (serve activity_handler e s)) = cache s.
Proof.
  intros Hs Hev Hin Ht Hc.
  assert (Hup : upstream_ok KActivity e (fetch_tick KActivity s) = false).
  { simpl. rewrite Hev. apply not_true_is_false. intros Hall.
    rewrite forallb_forall in Hall.
    assert (Hp : In event (pushes events)).
    { unfold pushes. apply filter_In. split; [exact Hin|].
      now apply String.eqb_eq. }
    specialize (Hall _ Hp). unfold has_commits in Hall.
    now rewrite Hc in Hall. }
  destruct (handler_failure KActivity e s Hs Hup) as (s' & Hrun & Hcache).
  simpl in Hrun. rewrite Hrun. simpl. auto.
Qed.

Lemma activity_push_without_commits_witness :
  fst (serve activity_handler env_bare_push state_init) =
    ok (ActivityBody [] false) /\
  cache (snd (serve activity_handler env_bare_push state_init)) =
    cache state_init.
Proof.
  apply (activity_push_without_commits env_bare_push state_init
           [push_event; push_event_bare] push_event_bare);
    try reflexivity.
  simpl. auto.
Defined.

(** ** The quotes, once more *)

(** X15. The count is capped from above only. A negative count [-k]
    drops the last [k] strings of the shuffled list: the response has
    [10 - k] strings, up to nine, and none from [-10] downwards. In
    every case the response is a prefix of the shuffled list. *)
Theorem quotes_negative_count_length shuffle count :
  Permutation quotes (shuffle quotes) ->
  count < 0 ->
  let resp := quotes_handler shuffle (Some count) in
  Z.of_nat (List.length resp) = Z.max (10 + count) 0 /\
  exists rest, shuffle quotes = (resp ++ rest)%list.
Proof.
  intros Hperm Hc resp. subst resp. split.
  - rewrite (quotes_handler_length shuffle Hperm). cbv zeta.
    replace (Js.num_or (Some count) 1) with count
      by (destruct count; [lia|reflexivity|reflexivity]).
    destruct (Z.ltb_spec count 0); lia.
  - unfold quotes_handler, Js.slice0. eexists.
    symmetry. apply firstn_skipn.
Qed.

Lemma quotes_negative_count_length_witness :
  Z.of_nat (List.length (quotes_handler engine_shuffle (Some (-3)))) = 7.
Proof.
  exact (proj1 (quotes_negative_count_length engine_shuffle (-3)
                  (random_sort_perm Nat.even quotes) eq_refl)).
Defined.

(** ** The daily series *)

Lemma sorted_desc_strict {A} (key : A -> Z) (l : list A) :
  sorted_desc key l -> NoDup (map key l) ->
  StronglySorted (fun a b => key b < key a) l.
Proof.
  unfold sorted_desc. induction 1 as [|x t Ht IH Hx]; simpl; intros Hnd.
  - constructor.
  - inversion Hnd as [|? ? Hnot Hnd']; subst.
    constructor; [auto|].
    rewrite Forall_forall in *. intros y Hy.
    specialize (Hx y Hy).
    assert (key y <> key x).
    { intros Heq. apply Hnot. rewrite <- Heq. now apply in_map. }
    lia.
Qed.

Lemma daily_series_spec rows :
  let series := SqlStats.daily_series rows in
  (List.length series <= 30)%nat /\
  strictly_desc series /\
  forall d, In d series ->
    Daily.visits d = Sql.count_all (SqlStats.on_date (Daily.date d) rows) /\
    Daily.uniqueVisitors d =
      Sql.count_distinct_ip (SqlStats.on_date (Daily.date d) rows) /\
    1 <= Daily.visits d <= Sql.count_all rows /\
    0 <= Daily.uniqueVisitors d <= Daily.visits d.
Proof.
  unfold SqlStats.daily_series.
  set (groups := map _ (SqlStats.dates rows)).
  assert (Hkeys : map Daily.date groups = SqlStats.dates rows).
  { subst groups. rewrite map_map. simpl. apply map_id. }
  split; [apply firstn_le_length|]. split.
  - unfold strictly_desc. apply sorted_desc_strict.
    + apply sorted_desc_firstn.
      apply (stable_sort_sorted Daily.date).
    + rewrite <- firstn_map. apply NoDup_firstn_of.
      eapply Permutation_NoDup;
        [apply Permutation_map, stable_sort_perm|].
      rewrite Hkeys. apply NoDup_nodup.
  - intros d Hd. apply in_firstn_in in Hd.
    apply (Permutation_in d (Permutation_sym (stable_sort_perm _ _))) in Hd.
    subst groups. apply in_map_iff in Hd as (day & <- & Hday). simpl.
    split; [reflexivity|]. split; [reflexivity|].
    unfold SqlStats.dates in Hday. apply nodup_In in Hday.
    apply in_map_iff in Hday as (r & Hr & Hin).
    assert (Hrow : In r (SqlStats.on_date day rows)).
    { unfold SqlStats.on_date. apply filter_In. split; [exact Hin|].
      apply Z.eqb_eq. exact Hr. }
    pose proof (count_distinct_ip_le_count_all (SqlStats.on_date day rows)).
    assert (Hlen : (List.length (SqlStats.on_date day rows)
                    <= List.length rows)%nat)
      by apply filter_length_le.
    unfold Sql.count_all, Sql.count_distinct_ip in *.
    destruct (SqlStats.on_date day rows); [contradiction|].
    simpl List.length in *. lia.
Qed.

(** X16. [/api/visitors/stats] only reads. When the database reports
    an error it answers 500; otherwise it lists at most 30 days, the
    latest first and no day twice, and for each day the number of
    visits of that day, at least 1, and a number of distinct addresses
    that is at most the number of visits. *)
Theorem visitors_stats_series e s :
  let out := fst (visitors_stats_handler e s) in
  let s' := snd (visitors_stats_handler e s) in
  visitors s' = visitors s /\ cache s' = cache s /\
  requests s' = requests s /\
  if db_error e (tick s)
  then out = inl (inl (status_500 "Database error"))
  else exists series,
      out = inl (inr series) /\
      (List.length series <= 30)%nat /\
      strictly_desc series /\
      forall d, In d series ->
        Daily.visits d =
          Sql.count_all (SqlStats.on_date (Daily.date d) (visitors s)) /\
        1 <= Daily.visits d <= Sql.count_all (visitors s) /\
        0 <= Daily.uniqueVisitors d <= Daily.visits d.
Proof.
  unfold visitors_stats_handler, bind, db_query, ret.
  destruct (db_error e (tick s)); simpl.
  - now repeat split.
  - repeat split.
    exists (SqlStats.daily_series (visitors s)).
    destruct (daily_series_spec (visitors s)) as (Hlen & Hsorted & Hrows).
    split; [reflexivity|]. split; [exact Hlen|]. split; [exact Hsorted|].
    intros d Hd. destruct (Hrows d Hd) as (Hv & _ & Hb & Hu). auto.
Qed.

(** ** The earlier revision *)

Lemma variant_followers_fetch_ok e s u rs :
  github_user e (VariantGithub.tick s) = Some u ->
  github_repos e (S (VariantGithub.tick s)) (users_url ++ "/repos?per_page=1") = Some rs ->
  let data := VariantGithub.Payload.mk (User.followers u) (User.following u)
                (User.public_repos u) false None in
  VariantGithub.followers_fetch e s =
    (VariantGithub.ok (VariantGithub.FollowersBody data),
     VariantGithub.mkState
       (VariantGithub.StatsCache.mk (Some data) (VariantGithub.StatsCache.repos (VariantGithub.statsCache s))
          (now e (S (S (VariantGithub.tick s)))))
       (S (S (S (VariantGithub.tick s))))
       (VariantGithub.requests s ++
        [ {| url := users_url; authorization := headers e |};
          {| url := users_url ++ "/repos?per_page=1";
             authorization := headers e |} ])).
Proof.
  intros Hu Hr. unfold VariantGithub.followers_fetch, VariantGithub.call. cbn [VariantGithub.tick].
  rewrite Hu, Hr. cbn [VariantGithub.tick VariantGithub.requests VariantGithub.statsCache].
  now rewrite <- app_assoc.
Qed.

(** X17. The earlier [/api/github/followers]: a fetch stores its
    payload with [cached: false], and a later request within 300000 ms
    of [timestamp] gets this stored payload as it is, still saying
    [cached: false], and sends nothing. *)
Theorem variant_followers_hit e s u rs :
  variant_hit (VariantGithub.StatsCache.followers (VariantGithub.statsCache s)) e s = false ->
  let n := variant_fetch_tick (VariantGithub.StatsCache.followers (VariantGithub.statsCache s)) s in
  github_user e n = Some u ->
  github_repos e (S n) (users_url ++ "/repos?per_page=1") = Some rs ->
  let data := VariantGithub.Payload.mk (User.followers u) (User.following u)
                (User.public_repos u) false None in
  let s1 := snd (VariantGithub.followers_handler e s) in
  fst (VariantGithub.followers_handler e s) = VariantGithub.ok (VariantGithub.FollowersBody data) /\
  VariantGithub.StatsCache.followers (VariantGithub.statsCache s1) = Some data /\
  VariantGithub.StatsCache.timestamp (VariantGithub.statsCache s1) = now e (S (S n)) /\
  forall e2 s2,
    VariantGithub.StatsCache.followers (VariantGithub.statsCache s2) = Some data ->
    now e2 (VariantGithub.tick s2) - VariantGithub.StatsCache.timestamp (VariantGithub.statsCache s2) < 300000 ->
    VariantGithub.followers_handler e2 s2 = (VariantGithub.ok (VariantGithub.FollowersBody data), VariantGithub.step s2).
Proof.
  intros Hhit n Hu Hr data s1. subst n s1.
  unfold variant_hit, variant_fetch_tick in *. unfold VariantGithub.followers_handler.
  assert (Hrun : forall s0,
            VariantGithub.tick s0 =
              match VariantGithub.StatsCache.followers (VariantGithub.statsCache s) with
              | Some _ => S (VariantGithub.tick s) | None => VariantGithub.tick s end ->
            VariantGithub.followers_fetch e s0 =
              (VariantGithub.ok (VariantGithub.FollowersBody data),
               VariantGithub.mkState
                 (VariantGithub.StatsCache.mk (Some data)
                    (VariantGithub.StatsCache.repos (VariantGithub.statsCache s0))
                    (now e (S (S (VariantGithub.tick s0)))))
                 (S (S (S (VariantGithub.tick s0))))
                 (VariantGithub.requests s0 ++
                  [ {| url := users_url; authorization := headers e |};
                    {| url := users_url ++ "/repos?per_page=1";
                       authorization := headers e |} ]))).
  { intros s0 Ht.
    apply (variant_followers_fetch_ok e s0 u rs); rewrite Ht; assumption. }
  split; [|split; [|split]].
  - destruct (VariantGithub.StatsCache.followers (VariantGithub.statsCache s)) as [p|].
    + rewrite Hhit. now rewrite Hrun.
    + now rewrite Hrun.
  - destruct (VariantGithub.StatsCache.followers (VariantGithub.statsCache s)) as [p|].
    + rewrite Hhit. now rewrite Hrun.
    + now rewrite Hrun.
  - destruct (VariantGithub.StatsCache.followers (VariantGithub.statsCache s)) as [p|].
    + rewrite Hhit. now rewrite Hrun.
    + now rewrite Hrun.
  - intros e2 s2 Hdata Hel. unfold VariantGithub.followers_handler. rewrite Hdata.
    apply Z.ltb_lt in Hel. now rewrite Hel.
Qed.

Lemma variant_followers_hit_witness :
  let s1 := snd (VariantGithub.followers_handler env_online variant_state_init) in
  fst (VariantGithub.followers_handler env_online variant_state_init) =
    VariantGithub.ok (VariantGithub.FollowersBody variant_payload) /\
  VariantGithub.followers_handler env_online s1 =
    (VariantGithub.ok (VariantGithub.FollowersBody variant_payload), VariantGithub.step s1).
Proof.
  destruct (variant_followers_hit env_online variant_state_init
              (User.mk 10 2 3) [repo_c; repo_plain] eq_refl eq_refl eq_refl)
    as (Hr & Hstored & _ & Hlater).
  split; [exact Hr|].
  apply Hlater; [exact Hstored|reflexivity].
Defined.

(** X18. The earlier [/api/github/followers] asks for one repository
    and reads nothing of the answer, yet depends on it: when that call
    is rejected, the profile that did arrive is dropped, nothing is
    stored, and the answer is the stored payload marked [cached: true]
    with the note, or the status 500 when nothing is stored. *)
Theorem variant_followers_needs_repos e s u :
  variant_hit (VariantGithub.StatsCache.followers (VariantGithub.statsCache s)) e s = false ->
  let n := variant_fetch_tick (VariantGithub.StatsCache.followers (VariantGithub.statsCache s)) s in
  github_user e n = Some u ->
  github_repos e (S n) (users_url ++ "/repos?per_page=1") = None ->
  VariantGithub.statsCache (snd (VariantGithub.followers_handler e s)) = VariantGithub.statsCache s /\
  fst (VariantGithub.followers_handler e s) =
    match VariantGithub.StatsCache.followers (VariantGithub.statsCache s) with
    | Some p =>
        VariantGithub.ok (VariantGithub.FollowersBody
                (VariantGithub.Payload.mk (VariantGithub.Payload.followers p) (VariantGithub.Payload.following p)
                   (VariantGithub.Payload.publicRepos p) true (Some "Using cached data")))
    | None => {| VariantGithub.status := 500; VariantGithub.json := VariantGithub.ErrorBody "GitHub API error" |}
    end.
Proof.
  intros Hhit n Hu Hr. subst n.
  unfold variant_hit, variant_fetch_tick in *.
  unfold VariantGithub.followers_handler, VariantGithub.followers_fetch, VariantGithub.followers_catch,
    VariantGithub.call, VariantGithub.step.
  destruct (VariantGithub.StatsCache.followers (VariantGithub.statsCache s)) as [p|] eqn:E;
    cbn [VariantGithub.tick VariantGithub.statsCache VariantGithub.requests] in *.
  - rewrite Hhit, Hu, Hr. cbn [VariantGithub.statsCache]. rewrite E. now split.
  - rewrite Hu, Hr. cbn [VariantGithub.statsCache]. rewrite E. now split.
Qed.

Lemma variant_followers_needs_repos_witness :
  fst (VariantGithub.followers_handler env_profile_only variant_state_init) =
    {| VariantGithub.status := 500; VariantGithub.json := VariantGithub.ErrorBody "GitHub API error" |}.
Proof.
  exact (proj2 (variant_followers_needs_repos env_profile_only
                  variant_state_init (User.mk 10 2 3)
                  eq_refl eq_refl eq_refl)).
Defined.

(** X19. The earlier [/api/github/repos] always answers 200 with a
    bare list: the stored one on a hit, the projection of the reply
    after a fetch (every description non-empty, ["No description"] by
    default), and after a rejected call the stored list or, with
    nothing stored, the empty list. *)
Theorem variant_repos_always_list e s :
  let slot := VariantGithub.StatsCache.repos (VariantGithub.statsCache s) in
  let n := variant_fetch_tick slot s in
  let u := users_url ++ "/repos?sort=updated&per_page=6" in
  exists l,
    fst (VariantGithub.repos_handler e s) = VariantGithub.ok (VariantGithub.ReposBody l) /\
    if variant_hit slot e s then slot = Some l
    else match github_repos e n u with
         | Some rs =>
             l = map VariantGithub.project_repo rs /\
             VariantGithub.StatsCache.repos (VariantGithub.statsCache (snd (VariantGithub.repos_handler e s)))
               = Some l /\
             forall p, In p l -> VariantGithub.Summary.description p <> ""
         | None =>
             VariantGithub.statsCache (snd (VariantGithub.repos_handler e s)) = VariantGithub.statsCache s /\
             (slot = Some l \/ slot = None /\ l = [])
         end.
Proof.
  intros slot n u. subst slot n u.
  unfold variant_hit, variant_fetch_tick.
  unfold VariantGithub.repos_handler, VariantGithub.repos_fetch, VariantGithub.repos_catch.
  assert (Hdesc : forall rs p, In p (map VariantGithub.project_repo rs) ->
                    VariantGithub.Summary.description p <> "").
  { intros rs p Hp. apply in_map_iff in Hp as (r & <- & _).
    unfold VariantGithub.project_repo. simpl.
    destruct (Repo.description r) as [[|a d]|]; simpl; discriminate. }
  unfold VariantGithub.call, VariantGithub.step.
  destruct (VariantGithub.StatsCache.repos (VariantGithub.statsCache s)) as [p|] eqn:E;
    cbn [VariantGithub.tick VariantGithub.statsCache VariantGithub.requests].
  - destruct (_ <? _).
    + now exists p.
    + destruct (github_repos e (S (VariantGithub.tick s)) _) as [rs|];
        cbn [fst snd VariantGithub.statsCache VariantGithub.StatsCache.repos].
      * eexists. split; [reflexivity|]. split; [reflexivity|].
        split; [reflexivity|apply Hdesc].
      * rewrite E. exists p. auto.
  - destruct (github_repos e (VariantGithub.tick s) _) as [rs|];
      cbn [fst snd VariantGithub.statsCache VariantGithub.StatsCache.repos].
    + eexists. split; [reflexivity|]. split; [reflexivity|].
      split; [reflexivity|apply Hdesc].
    + rewrite E. exists []. auto.
Qed.

(** X20. In the earlier revision too the two payloads share one
    [timestamp]: after a fetch of the repositories, a stored followers
    payload of any age is served again without a call for the next
    300000 ms. *)
Theorem variant_repos_fetch_refreshes_followers e s rs p :
  variant_hit (VariantGithub.StatsCache.repos (VariantGithub.statsCache s)) e s = false ->
  let n := variant_fetch_tick (VariantGithub.StatsCache.repos (VariantGithub.statsCache s)) s in
  github_repos e n (users_url ++ "/repos?sort=updated&per_page=6") = Some rs ->
  VariantGithub.StatsCache.followers (VariantGithub.statsCache s) = Some p ->
  let s1 := snd (VariantGithub.repos_handler e s) in
  VariantGithub.StatsCache.followers (VariantGithub.statsCache s1) = Some p /\
  VariantGithub.StatsCache.timestamp (VariantGithub.statsCache s1) = now e (S n) /\
  forall e2 s2,
    VariantGithub.statsCache s2 = VariantGithub.statsCache s1 ->
    now e2 (VariantGithub.tick s2) - now e (S n) < 300000 ->
    VariantGithub.followers_handler e2 s2 = (VariantGithub.ok (VariantGithub.FollowersBody p), VariantGithub.step s2).
Proof.
  intros Hhit n Hr Hp s1. subst n s1.
  unfold variant_hit, variant_fetch_tick in *.
  assert (Hs1 :
    VariantGithub.statsCache (snd (VariantGithub.repos_handler e s)) =
    VariantGithub.StatsCache.mk (Some p) (Some (map VariantGithub.project_repo rs))
      (now e (S match VariantGithub.StatsCache.repos (VariantGithub.statsCache s) with
                | Some _ => S (VariantGithub.tick s) | None => VariantGithub.tick s end))).
  { unfold VariantGithub.repos_handler, VariantGithub.repos_fetch, VariantGithub.call, VariantGithub.step.
    destruct (VariantGithub.StatsCache.repos (VariantGithub.statsCache s)) as [l|];
      cbn [VariantGithub.tick VariantGithub.statsCache VariantGithub.requests] in *.
    - rewrite Hhit, Hr. cbn [snd VariantGithub.statsCache]. now rewrite Hp.
    - rewrite Hr. cbn [snd VariantGithub.statsCache]. now rewrite Hp. }
  rewrite Hs1. simpl. split; [reflexivity|]. split; [reflexivity|].
  intros e2 s2 Hc Hel. unfold VariantGithub.followers_handler. rewrite Hc. simpl.
  apply Z.ltb_lt in Hel. now rewrite Hel.
Qed.

Lemma variant_repos_fetch_refreshes_followers_witness :
  variant_hit (Some variant_payload) env_online variant_state_stale = false /\
  let s1 := snd (VariantGithub.repos_handler env_online variant_state_stale) in
  VariantGithub.followers_handler env_online s1 =
    (VariantGithub.ok (VariantGithub.FollowersBody variant_payload), VariantGithub.step s1).
Proof.
  split; [reflexivity|].
  destruct (variant_repos_fetch_refreshes_followers env_online
              variant_state_stale [repo_c; repo_plain] variant_payload
              eq_refl eq_refl eq_refl) as (_ & _ & Hlater).
  apply Hlater; reflexivity.
Defined.

(** X21. The earlier [/api/quotes] takes no count: whatever the
    shuffle, the answer has exactly three strings, all different and
    all from its list of five. *)
Theorem variant_quotes_three shuffle :
  Permutation VariantGithub.quotes (shuffle VariantGithub.quotes) ->
  exists qs,
    VariantGithub.quotes_handler shuffle = VariantGithub.ok (VariantGithub.QuotesBody qs) /\
    List.length qs = 3%nat /\
    NoDup qs /\
    forall q, In q qs -> In q VariantGithub.quotes.
Proof.
  intros Hperm. unfold VariantGithub.quotes_handler, Js.slice0.
  eexists. split; [reflexivity|].
  pose proof (Permutation_length Hperm) as Hlen. simpl in Hlen.
  rewrite <- Hlen. simpl Z.to_nat.
  split; [|split].
  - rewrite length_firstn, <- Hlen. reflexivity.
  - apply NoDup_firstn_of. eapply Permutation_NoDup; [exact Hperm|].
    assert (H : nodup string_dec VariantGithub.quotes = VariantGithub.quotes)
      by (vm_compute; reflexivity).
    rewrite <- H. apply NoDup_nodup.
  - intros q Hq. apply in_firstn_in in Hq.
    eapply Permutation_in; [apply Permutation_sym, Hperm|exact Hq].
Qed.

Lemma variant_quotes_three_witness :
  exists qs,
    VariantGithub.quotes_handler engine_shuffle = VariantGithub.ok (VariantGithub.QuotesBody qs) /\
    List.length qs = 3%nat /\
    NoDup qs /\
    forall q, In q qs -> In q VariantGithub.quotes.
Proof.
  apply (variant_quotes_three engine_shuffle).
  apply random_sort_perm.
Defined.

(** ** Sequences of requests *)

Lemma visitors_stats_handler_state e s :
  snd (visitors_stats_handler e s) = step s.
Proof.
  unfold visitors_stats_handler, bind, db_query, ret.
  destruct (db_error e (tick s)); reflexivity.
Qed.

Lemma run_endpoint_table ep e s :
  exists added,
    visitors (run_endpoint ep e s) = (visitors s ++ added)%list /\
    (List.length added <= match ep with Visit _ => 1 | _ => 0 end)%nat.
Proof.
  destruct ep as [req| |k]; simpl.
  - destruct (serve (visitors_handler req) e s) as [r s'] eqn:E.
    destruct (visitors_handler_spec _ _ _ _ _ E)
      as [[_ [Hs|[row Hs]]]|(_ & [row Hs] & _)]; simpl; rewrite Hs.
    + exists []. rewrite app_nil_r. auto.
    + exists [row]. auto.
    + exists [row]. auto.
  - rewrite visitors_stats_handler_state. exists []. rewrite app_nil_r. auto.
  - destruct (handler_effects k e s) as (Hv & _). rewrite Hv.
    exists []. rewrite app_nil_r. auto.
Qed.

(** X22. The table only grows: whatever requests are handled, in any
    order and with any failures, the rows that were in the table are
    still there, unchanged and in front, and at most one row per visit
    has been added. *)
Theorem table_is_append_only eps e s :
  exists added,
    visitors (run_all eps e s) = (visitors s ++ added)%list /\
    (List.length added <= visits_among eps)%nat.
Proof.
  unfold run_all, visits_among. revert s.
  induction eps as [|ep rest IH]; intros s; simpl.
  - exists []. rewrite app_nil_r. auto.
  - destruct (run_endpoint_table ep e s) as (a1 & H1 & L1).
    destruct (IH (run_endpoint ep e s)) as (a2 & H2 & L2).
    exists (a1 ++ a2)%list. rewrite H2, H1, <- app_assoc.
    split; [reflexivity|]. rewrite length_app.
    destruct ep; simpl in *; lia.
Qed.

Lemma run_endpoint_requests ep e s :
  Forall confined (requests s) -> Forall confined (requests (run_endpoint ep e s)).
Proof.
  intros H. destruct ep as [req| |k]; simpl.
  - destruct (visitors_handler_effects req e s) as [_ Hr]. rewrite Hr.
    apply Forall_app. split; [exact H|].
    destruct (not_loopback (client_ip req)); repeat constructor.
  - rewrite visitors_stats_handler_state. exact H.
  - destruct (handler_effects k e s) as (_ & _ & Hr). rewrite Hr.
    apply Forall_app. split; [exact H|].
    destruct (serves_from_cache k e s); [constructor|].
    destruct k; repeat constructor; right; reflexivity.
Qed.

(** X23. The token stays with GitHub: in any sequence of requests,
    every outbound request that carries an [Authorization] header goes
    to [https://api.github.com/]; the lookup of an address never
    carries one. *)
Theorem token_only_to_github eps e s :
  Forall confined (requests s) ->
  Forall confined (requests (run_all eps e s)).
Proof.
  unfold run_all. revert s.
  induction eps as [|ep rest IH]; intros s H; simpl; [exact H|].
  apply IH, run_endpoint_requests, H.
Qed.

Lemma token_only_to_github_witness :
  Forall confined
    (requests (run_all [Github KStats; Visit req_remote; Github KActivity]
                 env_online state_init)) /\
  List.length
    (requests (run_all [Github KStats; Visit req_remote; Github KActivity]
                 env_online state_init)) = 4%nat.
Proof.
  split; [|reflexivity].
  apply (token_only_to_github
           [Github KStats; Visit req_remote; Github KActivity]
           env_online state_init).
  constructor.
Defined.

(** X24. A burst of requests for stored payloads costs GitHub nothing:
    when the slot of every endpoint asked for is set and each request
    reads a clock within [CACHE_DURATION] of [lastUpdated], the cache
    and the list of outbound requests are the same after the whole
    sequence. *)
Theorem burst_served_from_cache ks e s :
  (forall k, In k ks -> warm k (cache s) = true) ->
  (forall i, (i < List.length ks)%nat ->
     now e (tick s + i) - Cache.lastUpdated (cache s) < CACHE_DURATION) ->
  let s' := run_all (map Github ks) e s in
  cache s' = cache s /\
  requests s' = requests s /\
  tick s' = (tick s + List.length ks)%nat.
Proof.
  unfold run_all. revert s.
  induction ks as [|k rest IH]; intros s Hw Hfresh; simpl.
  - repeat split. lia.
  - assert (Hhit : serves_from_cache k e s = true).
    { unfold serves_from_cache. rewrite Hw by now left. simpl.
      apply Z.ltb_lt. specialize (Hfresh 0%nat). rewrite Nat.add_0_r in Hfresh.
      apply Hfresh. simpl. lia. }
    destruct (handler_hit k e s Hhit) as (r & Hrun & _).
    unfold serve. rewrite Hrun. simpl.
    destruct (IH (step s)) as (Hc & Hr & Ht).
    + intros k' Hk'. apply Hw. now right.
    + intros i Hi. cbn [tick step cache].
      replace (S (tick s) + i)%nat with (tick s + S i)%nat by lia.
      apply Hfresh. simpl. lia.
    + simpl in *. rewrite Hc, Hr, Ht. repeat split. lia.
Qed.

Lemma burst_served_from_cache_witness :
  let s' := run_all (map Github [KStats; KStats; KStats]) env_online
              state_stats_fresh in
  cache s' = cache state_stats_fresh /\
  requests s' = requests state_stats_fresh /\
  tick s' = 103%nat.
Proof.
  apply (burst_served_from_cache [KStats; KStats; KStats] env_online
           state_stats_fresh).
  - intros k [<-|[<-|[<-|[]]]]; reflexivity.
  - intros i Hi. simpl in Hi.
    destruct i as [|[|[|i]]]; [reflexivity|reflexivity|reflexivity|lia].
Defined.

Lemma nodup_snoc_length (l : list string) (a : string) :
  List.length (nodup string_dec (l ++ [a])) =
  (List.length (nodup string_dec l)
   + if in_dec string_dec a l then 0 else 1)%nat.
Proof.
  induction l as [|x t IH]; simpl; [reflexivity|].
  destruct (in_dec string_dec x (t ++ [a])) as [Hin|Hout];
    destruct (in_dec string_dec x t) as [Hx|Hx];
    destruct (string_dec x a) as [Heq|Hne];
    destruct (in_dec string_dec a t) as [Ha|Ha];
    simpl; rewrite ?IH;
    try (destruct (in_dec string_dec a t); [|contradiction]);
    try (destruct (in_dec string_dec a t); [contradiction|]);
    try lia;
    exfalso;
    try (apply Hout, in_or_app; simpl; now auto);
    try (apply in_app_or in Hin as [Hin|[Hin|[]]]; congruence);
    try (subst; contradiction).
Qed.

Lemma count_distinct_ip_snoc rows row :
  Sql.count_distinct_ip (rows ++ [row]) =
  Sql.count_distinct_ip rows +
  match Visitor.ip row with
  | Some _ => if seen_before (Visitor.ip row) rows then 0 else 1
  | None => 0
  end.
Proof.
  unfold Sql.count_distinct_ip, Sql.non_null, seen_before.
  rewrite flat_map_app. simpl.
  destruct (Visitor.ip row) as [a|]; simpl.
  - rewrite nodup_snoc_length.
    fold (Sql.non_null Visitor.ip rows).
    destruct (in_dec string_dec a _); lia.
  - rewrite app_nil_r. lia.
Qed.

Lemma count_distinct_ip_app rows added :
  Sql.count_distinct_ip rows <= Sql.count_distinct_ip (rows ++ added)
    <= Sql.count_distinct_ip rows + Z.of_nat (List.length added).
Proof.
  induction added as [|a t IH] using rev_ind.
  - rewrite app_nil_r. simpl. lia.
  - rewrite app_assoc, count_distinct_ip_snoc, length_app. simpl.
    destruct (Visitor.ip a);
      [destruct (seen_before _ _)|]; lia.
Qed.

(** X25. [uniqueVisitors] counts addresses. A visit answered by the
    working database reports at least the number of distinct addresses
    that the table had, and at most that number plus one plus the rows
    that other requests inserted before the read. When no such row
    landed, it reports one more than before if the address of the
    client is new to the table, and the same number if the address is
    already there or the request has none. *)
Theorem unique_visitors_step o req e s :
  let n := insert_tick req s in
  (forall k, (k <= 3)%nat -> db_error e (n + k) = false) ->
  exists t u cs c ci tm,
    fst (serve (visitors_handler_among o req) e s) =
      ok (VisitorsBody t u cs c ci tm) /\
    Sql.count_distinct_ip (visitors s) <= u
      <= Sql.count_distinct_ip (visitors s) + 1
         + landing o req s 0 + landing o req s 1 + landing o req s 2 /\
    (landing o req s 0 = 0 -> landing o req s 1 = 0 ->
     landing o req s 2 = 0 ->
     u = Sql.count_distinct_ip (visitors s) +
         match client_ip req with
         | Some _ =>
             if seen_before (client_ip req) (visitors s) then 0 else 1
         | None => 0
         end).
Proof.
  intros n Hdb.
  destruct (visitors_handler_among_run o req e s)
    as (A0 & A1 & A2 & A3 & row & L0 & L1 & L2 & _ & Hip & _ & _ & _ & Hr
        & _).
  cbv zeta in Hr. fold n in Hr, L0, L1, L2.
  pose proof (Hdb 0%nat ltac:(lia)) as H0. rewrite Nat.add_0_r in H0.
  pose proof (Hdb 1%nat ltac:(lia)) as H1. rewrite Nat.add_1_r in H1.
  pose proof (Hdb 2%nat ltac:(lia)) as H2.
  replace (n + 2)%nat with (S (S n)) in H2 by lia.
  pose proof (Hdb 3%nat ltac:(lia)) as H3.
  replace (n + 3)%nat with (S (S (S n))) in H3 by lia.
  rewrite H0, H1, H2, H3 in Hr. simpl in Hr.
  do 6 eexists. split; [exact Hr|].
  unfold landing. fold n.
  rewrite Nat.add_0_r, Nat.add_1_r.
  replace (n + 2)%nat with (S (S n)) by lia.
  rewrite <- L0, <- L1, <- L2.
  split.
  - pose proof (count_distinct_ip_app (visitors s) A0) as B0.
    pose proof (count_distinct_ip_app (visitors s ++ A0) [row]) as Br.
    pose proof (count_distinct_ip_app ((visitors s ++ A0) ++ [row]) A1) as B1.
    pose proof (count_distinct_ip_app
                  (((visitors s ++ A0) ++ [row]) ++ A1) A2) as B2.
    simpl in Br. lia.
  - intros Z0 Z1 Z2.
    assert (E0 : A0 = []) by (apply length_zero_iff_nil; lia).
    assert (E1 : A1 = []) by (apply length_zero_iff_nil; lia).
    assert (E2 : A2 = []) by (apply length_zero_iff_nil; lia).
    subst A0 A1 A2. rewrite !app_nil_r.
    rewrite count_distinct_ip_snoc, Hip. reflexivity.
Qed.

Lemma unique_visitors_step_witness :
  exists t u cs c ci tm,
    fst (serve (visitors_handler_among quiet req_local) env_offline
           state_visited) =
      ok (VisitorsBody t u cs c ci tm) /\
    u = 3 + 1.
Proof.
  destruct (unique_visitors_step quiet req_local env_offline state_visited
              (fun _ _ => eq_refl))
    as (t & u & cs & c & ci & tm & Hr & _ & Hquiet).
  exists t, u, cs, c, ci, tm. split; [exact Hr|].
  apply Hquiet; reflexivity.
Defined.
